(** * DeepScan MRI agent: the text pipeline of [mri_aggregator_app.py]

    A shallow embedding of the report pipeline (text normalisation, patient
    name extraction, heading-based section extraction, normalisation of the
    classifier's response, the per-report loop, the table and the export),
    followed by the properties its specification states about it and by
    further properties of the code.

    Part I holds the program, Part II the proofs of the specification's
    properties, Part III the further properties. *)

From Stdlib Require Import String Ascii.
From Stdlib Require Import List NArith ZArith Arith Bool Lia.
From Stdlib Require Import Sorted Permutation.
Import ListNotations.

Abbreviation length := Datatypes.length (only parsing).

(** * Part I: the program *)

(** ** Python strings

    A Python string is a sequence of Unicode code points: a character is a
    code point and a string is a list of them. *)

Definition char := N.
Definition str := list char.

(** A string literal of the source, as a Python string. *)
Definition py (s : string) : str := map N_of_ascii (list_ascii_of_string s).
Arguments py s%_string.

(** A literal written with apostrophes where the Python text has double
    quotes (the JSON documents of the examples). *)
Definition pyq (s : string) : str :=
  map (fun c => if (c =? 39)%N then 34%N else c) (py s).
Arguments pyq s%_string.

Definition LF : char := 10%N.
Definition CR : char := 13%N.
Definition SP : char := 32%N.
Definition NBSP : char := 160%N.

Fixpoint str_eqb (a b : str) : bool :=
  match a, b with
  | [], [] => true
  | x :: a', y :: b' => (x =? y)%N && str_eqb a' b'
  | _, _ => false
  end.

(** [s.startswith(p)] *)
Fixpoint startswith (p s : str) : bool :=
  match p, s with
  | [], _ => true
  | a :: p', b :: s' => (a =? b)%N && startswith p' s'
  | _ :: _, [] => false
  end.

(** [s.endswith(p)] *)
Definition endswith (p s : str) : bool := startswith (rev p) (rev s).

(** [s[a:b]] for offsets [0 <= a] and [0 <= b]: Python clips at the end of the
    string and yields the empty string when [b <= a]. *)
Definition slice (s : str) (a b : nat) : str := firstn (b - a) (skipn a s).

(** [s.replace(old, new)] for a non-empty [old]: a left-to-right scan that
    replaces non-overlapping occurrences.  [skip] counts the characters of an
    occurrence just replaced that are still to be passed over. *)
Fixpoint replace_go (old new s : str) (skip : nat) : str :=
  match s with
  | [] => []
  | c :: s' =>
      match skip with
      | S k => replace_go old new s' k
      | O =>
          if startswith old s
          then new ++ replace_go old new s' (length old - 1)
          else c :: replace_go old new s' 0
      end
  end.

Definition str_replace (old new s : str) : str := replace_go old new s 0.

(** Whitespace as [str.isspace], [str.strip] and the pattern class [\s] see
    it (CPython's [_PyUnicode_IsWhitespace]). *)
Definition is_space (c : char) : bool :=
  ((9 <=? c) && (c <=? 13) || (28 <=? c) && (c <=? 32)
   || (c =? 133) || (c =? 160) || (c =? 5760)
   || (8192 <=? c) && (c <=? 8202)
   || (c =? 8232) || (c =? 8233) || (c =? 8239) || (c =? 8287)
   || (c =? 12288))%N.

Fixpoint lstrip (s : str) : str :=
  match s with
  | c :: s' => if is_space c then lstrip s' else s
  | [] => []
  end.

Definition rstrip (s : str) : str := rev (lstrip (rev s)).

(** [s.strip()] *)
Definition strip (s : str) : str := lstrip (rstrip s).

(** Python's truth value of a string: the empty string is false. *)
Definition nonempty (s : str) : bool :=
  match s with [] => false | _ :: _ => true end.

(** Lexicographic order on code points, the order of [list.sort] on strings. *)
Fixpoint str_leb (a b : str) : bool :=
  match a, b with
  | [], _ => true
  | _ :: _, [] => false
  | x :: a', y :: b' => (x <? y)%N || (x =? y)%N && str_leb a' b'
  end.

(** ** [normalize_text] *)

Definition normalize_text (text : str) : str :=
  let text := str_replace [CR] [LF] (str_replace [CR; LF] [LF] text) in
  let text := str_replace [NBSP] [SP] text in
  text.

(** ** The Unicode character database

    The character tables of the interpreter are not part of the program: the
    model takes them as an interface.  [u_isalnum] and [u_isdecimal] are
    [str.isalnum] and [str.isdecimal] on one character (the pattern classes
    [\w], with the underscore, and [\d]); [u_ieq p c] says that the pattern
    character [p] matches the text character [c] under [re.IGNORECASE];
    [u_lower] is [str.lower]. *)
Class Unicode := {
  u_isalnum : char -> bool;
  u_isdecimal : char -> bool;
  u_ieq : char -> char -> bool;
  u_lower : str -> str;
  u_lower_nil : u_lower [] = []
}.

(** The tables restricted to ASCII letters and digits.  They agree with the
    interpreter's on every text made of ASCII characters, which is where the
    examples of this file live. *)
Definition ascii_lower (c : char) : char :=
  if ((65 <=? c) && (c <=? 90))%N then (c + 32)%N else c.

Definition ascii_isdigit (c : char) : bool := ((48 <=? c) && (c <=? 57))%N.

Definition ascii_isalpha (c : char) : bool :=
  ((65 <=? c) && (c <=? 90) || (97 <=? c) && (c <=? 122))%N.

#[export] Instance ascii_tables : Unicode := {|
  u_isalnum c := ascii_isdigit c || ascii_isalpha c;
  u_isdecimal := ascii_isdigit;
  u_ieq p c := (ascii_lower p =? ascii_lower c)%N;
  u_lower := map ascii_lower;
  u_lower_nil := eq_refl
|}.

(** ** Regular expressions

    The fragment of Python's [re] the program uses, with the matching order
    of its backtracking engine: a repetition is greedy and gives characters
    back one at a time, an optional part is tried before it is skipped, and
    the left branch of an alternative is tried before the right one. *)

Inductive regex :=
| Eps
| Chr (p : char -> bool)            (* one character of the class [p] *)
| Rep (p : char -> bool) (lo : nat) (* [p{lo,}], greedy *)
| Opt (r : regex)                   (* [r?], greedy *)
| Seq (r1 r2 : regex)
| Alt (r1 r2 : regex)               (* [r1|r2] *)
| Grp (r : regex)                   (* the capturing group [(r)] *)
| Bos                               (* [^] without re.MULTILINE *)
| Bol                               (* [^] under re.MULTILINE *)
| WordB (w : char -> bool).         (* [\b], for the word characters [w] *)

(** The span of a capturing group, when it took part in the match. *)
Definition capture := option (nat * nat).
Definition matched := option (nat * capture).

(** The number of leading characters of [s] in the class [p]. *)
Fixpoint span (p : char -> bool) (s : str) : nat :=
  match s with
  | c :: s' => if p c then S (span p s') else 0
  | [] => 0
  end.

(** Greedy backtracking: continue at [base + extra], then one character
    less, down to [base]. *)
Fixpoint backoff (k : nat -> matched) (base extra : nat) : matched :=
  match k (base + extra) with
  | Some m => Some m
  | None =>
      match extra with
      | O => None
      | S e => backoff k base e
      end
  end.

Definition at_line_start (s : str) (i : nat) : bool :=
  match i with
  | O => true
  | S j => match nth_error s j with Some c => (c =? LF)%N | None => false end
  end.

Definition word_at (w : char -> bool) (s : str) (i : nat) : bool :=
  match nth_error s i with Some c => w c | None => false end.

Definition word_boundary (w : char -> bool) (s : str) (i : nat) : bool :=
  xorb (match i with O => false | S j => word_at w s j end) (word_at w s i).

(** [run r s i g k]: match [r] in [s] from offset [i] with the group
    captured so far [g], then continue with [k] at the offset reached; [None]
    when every way of matching has been tried. *)
Fixpoint run (r : regex) (s : str) (i : nat) (g : capture)
    (k : nat -> capture -> matched) : matched :=
  match r with
  | Eps => k i g
  | Chr p =>
      match nth_error s i with
      | Some c => if p c then k (S i) g else None
      | None => None
      end
  | Rep p lo =>
      let n := span p (skipn i s) in
      if n <? lo then None else backoff (fun j => k j g) (i + lo) (n - lo)
  | Opt r1 =>
      match run r1 s i g k with
      | Some m => Some m
      | None => k i g
      end
  | Seq r1 r2 => run r1 s i g (fun j g' => run r2 s j g' k)
  | Alt r1 r2 =>
      match run r1 s i g k with
      | Some m => Some m
      | None => run r2 s i g k
      end
  | Grp r1 => run r1 s i g (fun j _ => k j (Some (i, j)))
  | Bos => if i =? 0 then k i g else None
  | Bol => if at_line_start s i then k i g else None
  | WordB w => if word_boundary w s i then k i g else None
  end.

(** A match of [r] starting exactly at offset [i]: its end and its group. *)
Definition match_at (r : regex) (s : str) (i : nat) : matched :=
  run r s i None (fun j g => Some (j, g)).

Fixpoint search_from (r : regex) (s : str) (i fuel : nat)
    : option (nat * nat * capture) :=
  match match_at r s i with
  | Some (j, g) => Some (i, j, g)
  | None =>
      match fuel with
      | O => None
      | S f => search_from r s (S i) f
      end
  end.

(** [re.search(r, s)]: the match at the leftmost offset that has one, as
    (start, end, group 1). *)
Definition re_search (r : regex) (s : str) : option (nat * nat * capture) :=
  search_from r s 0 (length s).

(** [m.group(1)] *)
Definition group1 (s : str) (g : capture) : str :=
  match g with
  | Some (a, b) => slice s a b
  | None => []
  end.

(** [re.split(r, s)[0]]: the text before the first match, the whole string
    when there is none. *)
Definition re_split_head (r : regex) (s : str) : str :=
  match re_search r s with
  | Some (i, _, _) => firstn i s
  | None => s
  end.

(** [re.sub(r, "", s)] for a pattern that matches no empty string: the
    matches found from left to right are deleted.  [rest] is [s] from offset
    [i] on, [skip] the number of characters of the current match still to
    delete. *)
Fixpoint sub_del_go (r : regex) (s rest : str) (i skip : nat) : str :=
  match rest with
  | [] => []
  | c :: rest' =>
      match skip with
      | S k => sub_del_go r s rest' (S i) k
      | O =>
          match match_at r s i with
          | Some (j, _) =>
              if i <? j then sub_del_go r s rest' (S i) (j - i - 1)
              else c :: sub_del_go r s rest' (S i) 0
          | None => c :: sub_del_go r s rest' (S i) 0
          end
      end
  end.

Definition re_sub_del (r : regex) (s : str) : str := sub_del_go r s s 0 0.

(** Pattern syntax. *)
Definition chain (rs : list regex) : regex := fold_right Seq Eps rs.

Definition one_of (cs : str) (c : char) : bool := existsb (N.eqb c) cs.

Definition not_newline (c : char) : bool := negb (c =? LF)%N.

(** A literal word, character by character. *)
Definition lits (w : str) : regex := chain (map (fun p => Chr (N.eqb p)) w).

(** The characters that have a meaning of their own in a pattern:
    [. ^ $ * + ? { } [ ] \ | ( )]. *)
Definition special (c : char) : bool :=
  one_of [46; 94; 36; 42; 43; 63; 123; 125; 91; 93; 92; 124; 40; 41]%N c.

(** A word every character of which stands for itself in a pattern. *)
Definition literal_word (w : str) : bool :=
  forallb (fun c => negb (special c)) w.

(** A word put into a pattern as it is, without [re.escape]: a dot stands
    for any character but the line feed, a character that is not special
    for itself.  The other special characters are not modelled: what
    depends on the characters a word matches is stated for words without
    them. *)
Definition word_pattern (w : str) : regex :=
  chain (map (fun p => if (p =? 46)%N then Chr not_newline else Chr (N.eqb p))
             w).

Section Extraction.

Context {U : Unicode}.

(** The class [\w]. *)
Definition is_word (c : char) : bool := u_isalnum c || (c =? 95)%N.

(** A word of a pattern compiled with [re.IGNORECASE]. *)
Definition ilits (w : str) : regex := chain (map (fun p => Chr (u_ieq p)) w).

(** The class [[:\-]] of a pattern compiled with [re.IGNORECASE]. *)
Definition colon_or_dash (c : char) : bool := u_ieq 58%N c || u_ieq 45%N c.

(** ** [extract_patient_name] *)

(** [r"<label>[:\-]\s*(.+)"] with [re.IGNORECASE]. *)
Definition label_pattern (label : str) : regex :=
  chain [ilits label; Chr colon_or_dash; Rep is_space 0; Grp (Rep not_newline 1)].

Definition patterns : list regex :=
  [ label_pattern (py "patient name");
    label_pattern (py "patient");
    label_pattern (py "name") ].

(** [r"\s{2,}|dob"] with [re.IGNORECASE]. *)
Definition separators : regex := Alt (Rep is_space 2) (ilits (py "dob")).

(** The candidate name cut out of a captured remainder: lines 77 and 79. *)
Definition name_candidate (captured : str) : str :=
  let line := strip captured in
  strip (re_split_head separators line).

Definition acceptable (line : str) : bool :=
  (0 <? length line) && (length line <=? 80).

(** The body of the loop for one pattern: the name it returns, if it returns. *)
Definition name_from (pat : regex) (norm : str) : option str :=
  match re_search pat norm with
  | Some (_, _, g) =>
      let line := name_candidate (group1 norm g) in
      if acceptable line then Some line else None
  | None => None
  end.

(** The loop over the patterns, left by the first [return]. *)
Fixpoint first_name (pats : list regex) (norm : str) : option str :=
  match pats with
  | [] => None
  | pat :: rest =>
      match name_from pat norm with
      | Some line => Some line
      | None => first_name rest norm
      end
  end.

Definition extract_patient_name (text : str) : str :=
  let norm := normalize_text text in
  match first_name patterns norm with
  | Some line => line
  | None => py "Unknown"
  end.

(** ** [extract_section_by_heading] *)

(** The class [[:\-–—.]]. *)
Definition separator_punct : str := [58; 45; 8211; 8212; 46]%N.

(** [rf"^\s*(?:\d+\s*[\.\)])?\s*{heading}s?\b\s*[:\-–—.]?"] with
    [re.MULTILINE]: the heading is put into the pattern as it is. *)
Definition heading_pattern (heading : str) : regex :=
  chain [ Bol; Rep is_space 0;
        Opt (chain [Rep u_isdecimal 1; Rep is_space 0; Chr (one_of (py ".)"))]);
        Rep is_space 0; word_pattern heading; Opt (Chr (N.eqb 115));
        WordB is_word;
        Rep is_space 0; Opt (Chr (one_of separator_punct)) ].

(** [rf"\b{kw}s?\b\s*[:\-–—.]?"]: the keyword is put into the pattern as it
    is. *)
Definition stop_pattern (kw : str) : regex :=
  chain [ WordB is_word; word_pattern kw; Opt (Chr (N.eqb 115));
        WordB is_word;
        Rep is_space 0; Opt (Chr (one_of separator_punct)) ].

(** The body of the loop over the stop headings: the new [end_idx]. *)
Definition stop_offset (low : str) (start_idx end_idx : nat) (kw : str) : nat :=
  match re_search (stop_pattern kw) (skipn start_idx low) with
  | Some (m_start, _, _) =>
      let candidate := start_idx + m_start in
      if candidate <? end_idx then candidate else end_idx
  | None => end_idx
  end.

Definition extract_section_by_heading
    (text heading : str) (stop_headings : list str) : option str :=
  if negb (nonempty text) then None
  else
    let norm := normalize_text text in
    let low := u_lower norm in
    match re_search (heading_pattern heading) low with
    | None => None
    | Some (_, start_idx, _) =>
        let end_idx :=
          fold_left (stop_offset low start_idx) stop_headings (length norm) in
        let section_text := strip (slice norm start_idx end_idx) in
        if nonempty section_text then Some section_text else None
    end.

Definition extract_findings_section (text : str) : option str :=
  let stop_headings :=
    [py "impression"; py "conclusion"; py "discussion"; py "report"] in
  extract_section_by_heading text (py "findings") stop_headings.

Definition extract_impression_section (text : str) : option str :=
  let stop_headings :=
    [py "conclusion"; py "discussion"; py "report"; py "findings"] in
  extract_section_by_heading text (py "impression") stop_headings.

End Extraction.

(** ** Python values, exceptions and dictionaries *)

#[warnings="-register-all"]
Inductive pyval :=
| PNone
| PBool (b : bool)
| PInt (z : Z)
| PFloat (lexeme : str)             (* a float, by the text that denotes it *)
| PStr (s : str)
| PList (items : list pyval)
| PDict (items : list (str * pyval)).

(** A dictionary keeps its keys in insertion order, each key once. *)
Definition dict := list (str * pyval).

Fixpoint dict_find (d : dict) (key : str) : option pyval :=
  match d with
  | [] => None
  | (k, v) :: d' => if str_eqb k key then Some v else dict_find d' key
  end.

(** [d[key] = v] *)
Fixpoint dict_set (d : dict) (key : str) (v : pyval) : dict :=
  match d with
  | [] => [(key, v)]
  | (k, v') :: d' =>
      if str_eqb k key then (k, v) :: d' else (k, v') :: dict_set d' key v
  end.

(** [d.get(key, default)] *)
Definition dict_get (d : dict) (key : str) (default : pyval) : pyval :=
  match dict_find d key with
  | Some v => v
  | None => default
  end.

Definition dict_keys (d : dict) : list str := map fst d.

(** The exceptions that matter to the control flow: the one the response
    parser is documented to raise, the two an attribute or key lookup raises,
    and any other exception (a collaborator's failure). *)
Inductive exn := JSONDecodeError | AttributeError | KeyError | OtherError.

Inductive result (A : Type) :=
| Ret (a : A)
| Raise (e : exn).
Arguments Ret {A} a.
Arguments Raise {A} e.

Definition bind {A B : Type} (c : result A) (k : A -> result B) : result B :=
  match c with
  | Ret a => k a
  | Raise e => Raise e
  end.

Notation "x <- c ;; k" := (bind c (fun x => k))
  (at level 61, c at next level, right associativity).

(** [d[key]] *)
Definition dict_item (d : dict) (key : str) : result pyval :=
  match dict_find d key with
  | Some v => Ret v
  | None => Raise KeyError
  end.

(** [v.get(key, default)]: only a dictionary has the method. *)
Definition py_get (v : pyval) (key : str) (default : pyval) : result pyval :=
  match v with
  | PDict d => Ret (dict_get d key default)
  | _ => Raise AttributeError
  end.

(** [v.strip()]: only a string has the method. *)
Definition py_strip (v : pyval) : result str :=
  match v with
  | PStr s => Ret (strip s)
  | _ => Raise AttributeError
  end.

(** ** [summarize_section_structured] *)

(** [r"^```[a-zA-Z]*"] *)
Definition fence_open : regex :=
  chain [Bos; lits (py "```"); Rep ascii_isalpha 0].

(** Lines 213 to 217: the code fence around the response is removed. *)
Definition strip_fences (raw : str) : str :=
  if startswith (py "```") raw then
    let raw := strip (re_sub_del fence_open raw) in
    if endswith (py "```") raw
    then strip (firstn (length raw - 3) raw)
    else raw
  else raw.

(** The record built by the [except] branch. *)
Definition fallback_record (section_text raw : str) : pyval :=
  PDict
    [ (py "summary",
       PStr (firstn 300 section_text
             ++ (if 300 <? length section_text then py "..." else [])));
      (py "severity_label", PStr (py "uncertain"));
      (py "severity_score", PInt 3);
      (py "raw_llm_output", PStr raw) ].

Section Classifier.

(** [json.loads], from the interpreter's library. *)
Variable json_loads : str -> result pyval.

(** Lines 211 to 228: what the function does with the text [output_text] the
    client returned. *)
Definition normalize_response (output_text section_text : str)
    : result pyval :=
  let raw := strip output_text in
  let raw := strip_fences raw in
  match json_loads raw with
  | Ret data => Ret data
  | Raise JSONDecodeError => Ret (fallback_record section_text raw)
  | Raise e => Raise e
  end.

(** The client is the call [client.responses.create(...)] followed by
    [.output_text]; the prompt it receives is built from [section_text] and
    [source_label], so the model hands it these two. *)
Definition summarize_section_structured
    (client : str -> str -> result str) (section_text source_label : str)
    : result pyval :=
  output_text <- client section_text source_label ;;
  normalize_response output_text section_text.

End Classifier.

(** ** [MRIApp.run_aggregation] *)

(** A line the run inserts into the output widget. *)
Inductive log_line :=
| Found (n : nat)                       (* "Found n PDF files." *)
| Processing (basename : str)
| ReadError                             (* "Error reading PDF: ..." *)
| UsingFindings
| UsingImpression
| UsingFullReport
| LLMError                              (* "Error during LLM call: ..." *)
| Done (severity_label severity_score : pyval)
| NoValidSummaries                      (* "No reports produced valid summaries." *)
| SummaryTable (rows : list dict)       (* lines 414 to 429 *)
| Saved (csv_path json_path : str)
| SaveError.                            (* "Error saving CSV/JSON: ..." *)

(** What the export writes: the rows handed to [csv.writer], the value
    handed to [json.dump]. *)
Inductive file_content :=
| CsvRows (rows : list (list pyval))
| JsonDump (v : pyval).

(** What the run does to the world around it, in order. *)
Inductive event :=
| ShowError (message : str)             (* messagebox.showerror *)
| ShowInfo (title message : str)        (* messagebox.showinfo *)
| ClearLog                              (* output_text.delete("1.0", END) *)
| Log (line : log_line)                 (* output_text.insert(END, ...) *)
| WriteFile (path : str) (content : file_content).

(** The application object and the collaborators it calls. *)
Record MRIApp := {
  client : option (str -> str -> result str);   (* [self.client] *)
  folder_var : str;
  out_var : str;
  isdir : str -> bool;                          (* os.path.isdir *)
  listdir : str -> result (list str);           (* os.listdir *)
  path_join : str -> str -> str;                (* os.path.join *)
  basename : str -> str;                        (* os.path.basename *)
  load_pdf_text : str -> result str;
  write_file : str -> file_content -> result unit
}.

(** [l.sort()] on strings. *)
Fixpoint insert_sorted (x : str) (l : list str) : list str :=
  match l with
  | [] => [x]
  | y :: l' => if str_leb x y then x :: l else y :: insert_sorted x l'
  end.

Definition sort_strs (l : list str) : list str := fold_right insert_sorted [] l.

(** Lines 351 to 371: the text and the source label handed to the
    classifier, with the line logged. A section is used when it is true as
    Python sees it: present and not empty. *)
Definition select_section
    (findings_text impression_text : option str) (full_text : str)
    : str * str * log_line :=
  match findings_text with
  | Some ((_ :: _) as section_text) => (section_text, py "findings", UsingFindings)
  | _ =>
      match impression_text with
      | Some ((_ :: _) as section_text) =>
          (section_text, py "impression", UsingImpression)
      | _ => (full_text, py "full_report", UsingFullReport)
      end
  end.

(** Lines 384 to 386: the fields read from the classifier's record. *)
Definition report_fields (structured : pyval) : result (str * pyval * pyval) :=
  summary_raw <- py_get structured (py "summary") (PStr []) ;;
  summary <- py_strip summary_raw ;;
  severity_label <-
    py_get structured (py "severity_label") (PStr (py "uncertain")) ;;
  severity_score <- py_get structured (py "severity_score") (PInt 3) ;;
  Ret (summary, severity_label, severity_score).

(** Lines 388 to 396: the row appended for a report. *)
Definition report_row
    (basename patient_name summary : str) (severity_label severity_score : pyval)
    : dict :=
  [ (py "file", PStr basename);
    (py "patient_name", PStr patient_name);
    (py "summary", PStr summary);
    (py "severity_label", severity_label);
    (py "severity_score", severity_score) ].

Definition csv_header : list pyval :=
  [ PStr (py "report_file"); PStr (py "patient_name");
    PStr (py "severity_label"); PStr (py "severity_score");
    PStr (py "summary") ].

(** The list handed to [writer.writerow] for one row. *)
Definition csv_row (row : dict) : result (list pyval) :=
  c1 <- dict_item row (py "file") ;;
  c2 <- dict_item row (py "patient_name") ;;
  c3 <- dict_item row (py "severity_label") ;;
  c4 <- dict_item row (py "severity_score") ;;
  c5 <- dict_item row (py "summary") ;;
  Ret [c1; c2; c3; c4; c5].

(** The rows written after the header, up to the first one whose lookup
    raises, and how the loop over them ended. *)
Fixpoint csv_body (rows : list dict) : list (list pyval) * result unit :=
  match rows with
  | [] => ([], Ret tt)
  | row :: rest =>
      match csv_row row with
      | Raise e => ([], Raise e)
      | Ret cells => let '(more, r) := csv_body rest in (cells :: more, r)
      end
  end.

Section Run.

Context {U : Unicode}.
Variable json_loads : str -> result pyval.
Variable a : MRIApp.

(** One turn of the loop over [pdf_files]: the rows after it and what it
    did. An exception that escapes the turn ends the run. *)
Definition process_report
    (c : str -> str -> result str) (pdf_path : str) (per_report_rows : list dict)
    : result (list dict * list event) :=
  let name := basename a pdf_path in
  let started := [Log (Processing name)] in
  match load_pdf_text a pdf_path with
  | Raise _ => Ret (per_report_rows, started ++ [Log ReadError])
  | Ret full_text =>
      let patient_name :=
        let found := extract_patient_name full_text in
        if nonempty found then found else py "Unknown" in
      let findings_text := extract_findings_section full_text in
      let impression_text := extract_impression_section full_text in
      let '(section_text, source_label, note) :=
        select_section findings_text impression_text full_text in
      match summarize_section_structured json_loads c section_text source_label with
      | Raise _ => Ret (per_report_rows, started ++ [Log note; Log LLMError])
      | Ret structured =>
          fields <- report_fields structured ;;
          let '(summary, severity_label, severity_score) := fields in
          let row :=
            report_row name patient_name summary severity_label severity_score in
          Ret (per_report_rows ++ [row],
               started ++ [Log note; Log (Done severity_label severity_score)])
      end
  end.

Fixpoint process_reports
    (c : str -> str -> result str) (pdf_files : list str) (per_report_rows : list dict)
    : result (list dict * list event) :=
  match pdf_files with
  | [] => Ret (per_report_rows, [])
  | pdf_path :: rest =>
      turn <- process_report c pdf_path per_report_rows ;;
      later <- process_reports c rest (fst turn) ;;
      Ret (fst later, snd turn ++ snd later)
  end.

(** Lines 434 to 468: the export, inside its [try]. [WriteFile] records
    that a file is opened and its content handed to the writer; [write_file]
    tells whether doing so raises. *)
Definition export (output_folder : str) (per_report_rows : list dict)
    : list event :=
  let csv_path := path_join a output_folder (py "mri_per_report_summary.csv") in
  let json_path := path_join a output_folder (py "mri_per_report_summary.json") in
  let '(body, ended) := csv_body per_report_rows in
  let csv := CsvRows (csv_header :: body) in
  let json := JsonDump (PList (map PDict per_report_rows)) in
  match (_ <- write_file a csv_path csv ;; ended) with
  | Raise _ => [WriteFile csv_path csv; Log SaveError]
  | Ret _ =>
      match write_file a json_path json with
      | Raise _ =>
          [WriteFile csv_path csv; WriteFile json_path json; Log SaveError]
      | Ret _ =>
          [ WriteFile csv_path csv; WriteFile json_path json;
            Log (Saved csv_path json_path) ]
      end
  end.

Definition run_aggregation : result (list event) :=
  match client a with
  | None =>
      Ret [ShowError (py "OpenAI client not initialized. Check API key.")]
  | Some c =>
      let input_folder := strip (folder_var a) in
      let output_folder := strip (out_var a) in
      if negb (isdir a input_folder) then
        Ret [ShowError (py "Input folder does not exist:" ++ [LF] ++ input_folder)]
      else if negb (isdir a output_folder) then
        Ret [ShowError (py "Output folder does not exist:" ++ [LF] ++ output_folder)]
      else
        names <- listdir a input_folder ;;
        let pdf_files :=
          sort_strs
            (map (path_join a input_folder)
                 (filter (fun f => endswith (py ".pdf") (u_lower f)) names)) in
        match pdf_files with
        | [] =>
            Ret [ShowInfo (py "No PDFs")
                          (py "No PDF files found in the selected folder.")]
        | _ :: _ =>
            done <- process_reports c pdf_files [] ;;
            let '(per_report_rows, turns) := done in
            let opening := [ClearLog; Log (Found (length pdf_files))] ++ turns in
            match per_report_rows with
            | [] => Ret (opening ++ [Log NoValidSummaries])
            | _ :: _ =>
                Ret (opening
                     ++ [Log (SummaryTable per_report_rows)]
                     ++ export output_folder per_report_rows)
            end
        end
  end.

End Run.

(** ** A JSON reader

    [Json.loads] reads a JSON document the way [json.loads] does (the
    grammar of RFC 8259, the constants [NaN], [Infinity] and [-Infinity],
    strings in strict mode, a repeated key keeping its last value) and
    raises [JSONDecodeError] on anything else.  The theorems of Part II hold
    for any reader; this one evaluates the model on concrete responses. *)
Module Json.

Definition is_ws (c : char) : bool :=
  ((c =? 32) || (c =? 9) || (c =? 10) || (c =? 13))%N.

Fixpoint skip_ws (s : str) : str :=
  match s with
  | c :: s' => if is_ws c then skip_ws s' else s
  | [] => []
  end.

Definition hex_digit (c : char) : option N :=
  if ascii_isdigit c then Some (c - 48)%N
  else if ((97 <=? c) && (c <=? 102))%N then Some (c - 87)%N
  else if ((65 <=? c) && (c <=? 70))%N then Some (c - 55)%N
  else None.

Definition hex4 (s : str) : option (N * str) :=
  match s with
  | a :: b :: c :: d :: rest =>
      match hex_digit a, hex_digit b, hex_digit c, hex_digit d with
      | Some x, Some y, Some z, Some w =>
          Some ((((x * 16 + y) * 16 + z) * 16 + w)%N, rest)
      | _, _, _, _ => None
      end
  | _ => None
  end.

(** The character denoted by what follows a backslash-u, a surrogate pair
    being joined. *)
Definition unicode_escape (s : str) : option (char * str) :=
  match hex4 s with
  | Some (c, rest) =>
      if ((55296 <=? c) && (c <=? 56319))%N then
        match rest with
        | 92%N :: 117%N :: rest2 =>
            match hex4 rest2 with
            | Some (c2, rest3) =>
                if ((56320 <=? c2) && (c2 <=? 57343))%N
                then Some ((65536 + (c - 55296) * 1024 + (c2 - 56320))%N, rest3)
                else Some (c, rest)
            | None => None
            end
        | _ => Some (c, rest)
        end
      else Some (c, rest)
  | None => None
  end.

Definition simple_escape (c : char) : option char :=
  if (c =? 34)%N then Some 34%N
  else if (c =? 92)%N then Some 92%N
  else if (c =? 47)%N then Some 47%N
  else if (c =? 98)%N then Some 8%N
  else if (c =? 102)%N then Some 12%N
  else if (c =? 110)%N then Some 10%N
  else if (c =? 114)%N then Some 13%N
  else if (c =? 116)%N then Some 9%N
  else None.

(** The string that ends at the next unescaped quote, and what follows it. *)
Fixpoint scanstring (fuel : nat) (s acc : str) : option (str * str) :=
  match fuel with
  | O => None
  | S f =>
      match s with
      | [] => None
      | c :: rest =>
          if (c =? 34)%N then Some (rev acc, rest)
          else if (c =? 92)%N then
            match rest with
            | [] => None
            | e :: rest' =>
                if (e =? 117)%N then
                  match unicode_escape rest' with
                  | Some (u, rest'') => scanstring f rest'' (u :: acc)
                  | None => None
                  end
                else
                  match simple_escape e with
                  | Some x => scanstring f rest' (x :: acc)
                  | None => None
                  end
            end
          else if (c <? 32)%N then None
          else scanstring f rest (c :: acc)
      end
  end.

Fixpoint digits (s : str) : str * str :=
  match s with
  | c :: s' =>
      if ascii_isdigit c then let '(ds, r) := digits s' in (c :: ds, r)
      else ([], s)
  | [] => ([], [])
  end.

Definition decimal (ds : str) : Z :=
  fold_left (fun n c => (10 * n + Z.of_N (c - 48))%Z) ds 0%Z.

Definition scan_number (s : str) : option (pyval * str) :=
  let '(sign, s1) :=
    match s with
    | 45%N :: r => ([45%N], r)
    | _ => ([], s)
    end in
  match s1 with
  | [] => None
  | c :: r =>
      let int_part :=
        if (c =? 48)%N then Some ([c], r)
        else if ascii_isdigit c then let '(ds, r') := digits r in Some (c :: ds, r')
        else None in
      match int_part with
      | None => None
      | Some (ds, r1) =>
          let '(frac, r2) :=
            match r1 with
            | 46%N :: d :: _ =>
                if ascii_isdigit d
                then let '(fs, r') := digits (tl r1) in (46%N :: fs, r')
                else ([], r1)
            | _ => ([], r1)
            end in
          let '(exp, r3) :=
            match r2 with
            | e :: r' =>
                if ((e =? 101) || (e =? 69))%N then
                  let '(sg, r'') :=
                    match r' with
                    | x :: t => if ((x =? 43) || (x =? 45))%N then ([x], t) else ([], r')
                    | [] => ([], r')
                    end in
                  let '(es, r''') := digits r'' in
                  if nonempty es then (e :: sg ++ es, r''') else ([], r2)
                else ([], r2)
            | [] => ([], r2)
            end in
          if nonempty frac || nonempty exp
          then Some (PFloat (sign ++ ds ++ frac ++ exp), r3)
          else Some (PInt (if nonempty sign then - decimal ds else decimal ds)%Z, r3)
      end
  end.

Definition constant (s : str) : option (pyval * str) :=
  let after (w : str) := skipn (length w) s in
  if startswith (py "null") s then Some (PNone, after (py "null"))
  else if startswith (py "true") s then Some (PBool true, after (py "true"))
  else if startswith (py "false") s then Some (PBool false, after (py "false"))
  else if startswith (py "NaN") s then Some (PFloat (py "NaN"), after (py "NaN"))
  else if startswith (py "Infinity") s
  then Some (PFloat (py "Infinity"), after (py "Infinity"))
  else if startswith (py "-Infinity") s
  then Some (PFloat (py "-Infinity"), after (py "-Infinity"))
  else scan_number s.

(** One value, and what follows it. *)
Fixpoint scan_once (fuel : nat) (s : str) {struct fuel} : option (pyval * str) :=
  match fuel with
  | O => None
  | S f =>
      match s with
      | [] => None
      | c :: rest =>
          if (c =? 34)%N then
            match scanstring (length rest) rest [] with
            | Some (v, r) => Some (PStr v, r)
            | None => None
            end
          else if (c =? 123)%N then
            match skip_ws rest with
            | 125%N :: r => Some (PDict [], r)
            | body =>
                match scan_pairs f body [] with
                | Some (d, r) => Some (PDict d, r)
                | None => None
                end
            end
          else if (c =? 91)%N then
            match skip_ws rest with
            | 93%N :: r => Some (PList [], r)
            | body =>
                match scan_items f body [] with
                | Some (l, r) => Some (PList l, r)
                | None => None
                end
            end
          else constant s
      end
  end

with scan_items (fuel : nat) (s : str) (acc : list pyval) {struct fuel}
    : option (list pyval * str) :=
  match fuel with
  | O => None
  | S f =>
      match scan_once f s with
      | None => None
      | Some (v, r) =>
          match skip_ws r with
          | 93%N :: r' => Some (rev (v :: acc), r')
          | 44%N :: r' => scan_items f (skip_ws r') (v :: acc)
          | _ => None
          end
      end
  end

with scan_pairs (fuel : nat) (s : str) (acc : dict) {struct fuel}
    : option (dict * str) :=
  match fuel with
  | O => None
  | S f =>
      match s with
      | 34%N :: r =>
          match scanstring (length r) r [] with
          | None => None
          | Some (key, r1) =>
              match skip_ws r1 with
              | 58%N :: r2 =>
                  match scan_once f (skip_ws r2) with
                  | None => None
                  | Some (v, r3) =>
                      let acc' := dict_set acc key v in
                      match skip_ws r3 with
                      | 125%N :: r4 => Some (acc', r4)
                      | 44%N :: r4 => scan_pairs f (skip_ws r4) acc'
                      | _ => None
                      end
                  end
              | _ => None
              end
          end
      | _ => None
      end
  end.

Definition loads (s : str) : result pyval :=
  match scan_once (2 * length s + 2) (skip_ws s) with
  | Some (v, rest) =>
      match skip_ws rest with
      | [] => Ret v
      | _ :: _ => Raise JSONDecodeError
      end
  | None => Raise JSONDecodeError
  end.

End Json.

(** ** A small world to run the program in *)

Definition posix_join (folder name : str) : str := folder ++ py "/" ++ name.

(** The text after the last slash of a path. *)
Fixpoint after_slash (path acc : str) : str :=
  match path with
  | [] => rev acc
  | c :: rest =>
      if (c =? 47)%N then after_slash rest [] else after_slash rest (c :: acc)
  end.

(** A folder that holds the files [names], each with the text [full_text];
    a classifier that answers [answer] whatever it is asked; folders that
    exist and files that can be written. *)
Definition demo_app (names : list str) (full_text : str) (answer : result str)
    : MRIApp :=
  {| client := Some (fun _ _ => answer);
     folder_var := py "reports";
     out_var := py "out";
     isdir := fun _ => true;
     listdir := fun _ => Ret names;
     path_join := posix_join;
     basename := fun path => after_slash path [];
     load_pdf_text := fun _ => Ret full_text;
     write_file := fun _ _ => Ret tt |}.

(** The report and the answer of the specification's end-to-end example. *)
Definition demo_text : str :=
  py "Findings: no acute abnormality." ++ [LF] ++ py "Impression: normal study.".

Definition demo_answer : str :=
  pyq "{'summary':'Normal brain MRI.','severity_label':'none/normal','severity_score':0}".

(** ** The vocabulary of the properties *)

(** The content handed to [json.loads]: the response trimmed and freed of
    its code fence. *)
Definition response_content (output_text : str) : str :=
  strip_fences (strip output_text).

(** The domains the prompt asks the classifier to stay within. *)
Definition severity_labels : list str :=
  [py "none/normal"; py "mild"; py "moderate"; py "severe"; py "uncertain"].

Definition valid_label (v : pyval) : bool :=
  match v with
  | PStr s => existsb (str_eqb s) severity_labels
  | _ => false
  end.

Definition valid_score (v : pyval) : bool :=
  match v with
  | PInt z => ((0 <=? z) && (z <=? 5))%Z
  | _ => false
  end.

(** The fallback record as the specification names its fields. *)
Definition spec_fallback_record (section_text raw : str) : pyval :=
  PDict
    [ (py "summary",
       PStr (firstn 300 section_text
             ++ (if 300 <? length section_text then py "..." else [])));
      (py "severity_label", PStr (py "uncertain"));
      (py "severity_score", PInt 3);
      (py "raw_output", PStr raw) ].

(** A row as the loop over the reports builds it. *)
Definition is_report_row (row : dict) : Prop :=
  exists name patient summary label score,
    row = report_row name patient summary label score.

(** The values of a row under the keys the export reads, in the order of
    the columns. *)
Definition row_cells (row : dict) : list pyval :=
  map (fun key => dict_get row key PNone)
      [ py "file"; py "patient_name"; py "severity_label";
        py "severity_score"; py "summary" ].

Definition is_write (e : event) : bool :=
  match e with
  | WriteFile _ _ => true
  | _ => false
  end.

(** A thing the run does that writes no file. *)
Definition quiet (e : event) : Prop := is_write e = false.

(** [re.search] looks for a match from offset 0 up to the end of the
    string: the two ways it can end. *)
Definition leftmost (r : regex) (s : str) (i j : nat) (g : capture) : Prop :=
  i <= length s
  /\ match_at r s i = Some (j, g)
  /\ forall q, q < i -> match_at r s q = None.

Definition no_match (r : regex) (s : str) : Prop :=
  forall q, q <= length s -> match_at r s q = None.

Section Vocabulary.

Context {U : Unicode}.

(** The text starts with the word [w], up to case. *)
Fixpoint ci_prefix (w s : str) : bool :=
  match w, s with
  | [], _ => true
  | p :: w', c :: s' => u_ieq p c && ci_prefix w' s'
  | _ :: _, [] => false
  end.

(** What one pattern does: it yields the name cut out of its leftmost match
    when that name is acceptable, and nothing otherwise: no later match of
    the same pattern is looked at. *)
Definition tier_accepts (pat : regex) (norm v : str) : Prop :=
  exists i j g,
    leftmost pat norm i j g
    /\ v = name_candidate (group1 norm g)
    /\ acceptable v = true.

Definition tier_rejects (pat : regex) (norm : str) : Prop :=
  no_match pat norm
  \/ exists i j g,
       leftmost pat norm i j g
       /\ acceptable (name_candidate (group1 norm g)) = false.

(** The extractor as the specification words it: the first pattern that has
    a match decides, and a refused candidate gives "Unknown" at once. *)
Fixpoint first_match_decides (pats : list regex) (norm : str) : str :=
  match pats with
  | [] => py "Unknown"
  | pat :: rest =>
      match re_search pat norm with
      | Some (_, _, g) =>
          let line := name_candidate (group1 norm g) in
          if acceptable line then line else py "Unknown"
      | None => first_match_decides rest norm
      end
  end.

(** Where the body of a section ends: at the least start, counted in the
    whole text, of a match of a stop heading in the text that follows offset
    [start], and at [n] when no stop heading matches before [n]. *)
Definition body_end (low : str) (start n : nat) (stops : list str) (e : nat)
    : Prop :=
  let rest := skipn start low in
  e <= n
  /\ (forall kw p,
        In kw stops -> p <= length rest ->
        match_at (stop_pattern kw) rest p <> None -> e <= start + p)
  /\ (e = n
      \/ exists kw p,
           In kw stops /\ p <= length rest
           /\ match_at (stop_pattern kw) rest p <> None /\ e = start + p).

End Vocabulary.

(** ** Headings, in the words of the specification *)

Section Headings.

Context {U : Unicode}.

(** The characters of [s] from offset [a] up to offset [b] are all in the
    class [p]. *)
Definition stretch (p : char -> bool) (s : str) (a b : nat) : Prop :=
  a <= b /\ b - a <= span p (skipn a s).

(** The character of [s] at offset [i] is in the class [p]. *)
Definition char_at (p : char -> bool) (s : str) (i : nat) : bool :=
  match nth_error s i with Some c => p c | None => false end.

(** A numbering token from [a] to [b]: one digit or more, whitespace if
    any, then a full stop or a closing parenthesis. *)
Definition numbering (s : str) (a b : nat) : Prop :=
  exists d e,
    a < d /\ stretch u_isdecimal s a d /\ stretch is_space s d e
    /\ char_at (one_of (py ".)")) s e = true /\ b = S e.

(** What may stand between the start of a line at [i] and a heading word at
    [h]: whitespace, a numbering token or none, whitespace. *)
Definition heading_prefix (s : str) (i h : nat) : Prop :=
  at_line_start s i = true
  /\ exists a x,
       stretch is_space s i a /\ (x = a \/ numbering s a x)
       /\ stretch is_space s x h.

(** Where the separator after a heading word ends: after the whitespace that
    follows offset [p] and one punctuation character of the separators, if
    there is one. *)
Definition separator_end (s : str) (p : nat) : nat :=
  let q := p + span is_space (skipn p s) in
  if char_at (one_of separator_punct) s q then S q else q.

(** The word [w] stands at offset [h] as a whole word, alone or followed by
    the letter s: the offset where its separator ends.  The letter s is
    taken whenever the word ends after it. *)
Definition word_end (w s : str) (h : nat) : option nat :=
  if startswith w (skipn h s) then
    let p := h + length w in
    if char_at (N.eqb 115) s p && word_boundary is_word s (S p)
    then Some (separator_end s (S p))
    else if word_boundary is_word s p then Some (separator_end s p)
    else None
  else None.

(** A line that starts at [i] starts with the heading [w], and the heading
    with its separator ends at [j]. *)
Definition heading_at (w s : str) (i j : nat) : Prop :=
  exists h, heading_prefix s i h /\ word_end w s h = Some j.

(** The stop heading [w] starts at offset [p]: a whole word, anywhere in a
    line. *)
Definition stop_at (w s : str) (p : nat) : bool :=
  word_boundary is_word s p
  && match word_end w s p with Some _ => true | None => false end.

(** Where the body of a section ends: at the least offset, counted in the
    whole text, at which a stop heading starts in the text that follows
    offset [start], and at [n] when none starts before [n]. *)
Definition section_end (low : str) (start n : nat) (stops : list str) (e : nat)
    : Prop :=
  let rest := skipn start low in
  e <= n
  /\ (forall kw p,
        In kw stops -> p <= length rest -> stop_at kw rest p = true ->
        e <= start + p)
  /\ (e = n
      \/ exists kw p,
           In kw stops /\ p <= length rest
           /\ stop_at kw rest p = true /\ e = start + p).

(** The part of both patterns that reads the word: the word, an optional
    letter s, a word boundary, whitespace, an optional separator. *)
Definition word_and_separator (w : str) : regex :=
  chain [ word_pattern w; Opt (Chr (N.eqb 115)); WordB is_word;
        Rep is_space 0; Opt (Chr (one_of separator_punct)) ].

(** The body of the section of [heading] in the text [norm], whose lower
    case is [low]: the heading is found at the start of a line, at [i] and
    at no line before, its leftmost match ends at [start], the body ends at
    the first stop heading after it, and is trimmed. *)
Definition section_body
    (heading : str) (stops : list str) (norm low body : str) : Prop :=
  exists i start g e,
    leftmost (heading_pattern heading) low i start g
    /\ heading_at heading low i start
    /\ (forall q j, q < i -> ~ heading_at heading low q j)
    /\ section_end low start (length norm) stops e
    /\ body = strip (slice norm start e).

End Headings.

(** ** More vocabulary *)

Section MoreVocabulary.

Context {U : Unicode}.

(** A text in which the separator pattern of the name extractor has nothing
    to match: the letters d, o, b stand nowhere in it, in any case, and no
    two whitespace characters stand side by side. *)
Definition separator_free (s : str) : Prop :=
  (forall p, ci_prefix (py "dob") (skipn p s) = false)
  /\ (forall p c1 c2,
        nth_error s p = Some c1 -> nth_error s (S p) = Some c2 ->
        is_space c1 && is_space c2 = false).

End MoreVocabulary.

(** ** [load_pdf_text]

    The function on what the PDF library yields: [pages] holds, in the order
    of the pages, what [page.extract_text()] returns for each, a text or
    [None]. *)

(** [sep.join(parts)] *)
Fixpoint str_join (sep : str) (parts : list str) : str :=
  match parts with
  | [] => []
  | p :: rest =>
      match rest with
      | [] => p
      | _ :: _ => p ++ sep ++ str_join sep rest
      end
  end.

(** [page.extract_text() or ""] (line 39) *)
Definition or_empty (page_text : option str) : str :=
  match page_text with
  | Some t => t
  | None => []
  end.

(** Lines 36 to 41. *)
Definition load_pdf_pages (pages : list (option str)) : str :=
  str_join [LF] (map or_empty pages).

(** ** The table shown before the export

    Lines 416 to 429, for a row as line 388 builds it: its file, its
    patient name and its summary are strings. *)

(** [s.ljust(n)] *)
Definition ljust (n : nat) (s : str) : str := s ++ repeat SP (n - length s).

(** Line 416. *)
Definition table_header : str :=
  ljust 30 (py "Report File") ++ py "  "
  ++ ljust 25 (py "Customer Name") ++ py "  "
  ++ ljust 10 (py "Severity") ++ py "  " ++ py "Summary" ++ [LF].

Section Table.

(** [str(v)], which is how an f-string shows a value: from the
    interpreter. *)
Variable py_str : pyval -> str.

(** Lines 421 to 428: the line inserted for a row. *)
Definition table_line
    (file patient_name summary : str) (severity_label severity_score : pyval)
    : str :=
  let file_col := ljust 30 (firstn 30 file) in
  let name_col := ljust 25 (firstn 25 patient_name) in
  let sev_col :=
    py_str severity_label ++ py " (" ++ py_str severity_score ++ py ")" in
  let sev_col := ljust 10 (firstn 10 sev_col) in
  let summary_col := str_replace [LF] [SP] summary in
  file_col ++ py "  " ++ name_col ++ py "  " ++ sev_col ++ py "  "
  ++ summary_col ++ [LF].

End Table.

(** ** Vocabulary of the run *)

(** A record the loop can read: an object whose summary, when it has one,
    is a string. *)
Definition readable_record (v : pyval) : Prop :=
  exists d s, v = PDict d /\ dict_get d (py "summary") (PStr []) = PStr s.

(** What is left of a list when some of its elements are dropped. *)
Inductive subsequence {A : Type} : list A -> list A -> Prop :=
| subsequence_nil : subsequence [] []
| subsequence_drop x l l' : subsequence l l' -> subsequence l (x :: l')
| subsequence_keep x l l' : subsequence l l' -> subsequence (x :: l) (x :: l').

(** The row of the report [name], within what the loop guarantees. *)
Definition row_of (name : str) (row : dict) : Prop :=
  exists patient summary label score,
    row = report_row name patient summary label score
    /\ 0 < length patient <= 80
    /\ strip patient = patient
    /\ strip summary = summary.

(** The reports named by the "Processing" lines, in order. *)
Definition processed (events : list event) : list str :=
  flat_map (fun e => match e with Log (Processing name) => [name] | _ => [] end)
           events.

(** The order of [list.sort] on strings, as a relation. *)
Definition str_le (x y : str) : Prop := str_leb x y = true.

(** * Part II: the properties *)

(** ** Lists and strings *)

Lemma nth_error_skipn_cons (s : str) (i : nat) (c : char) :
  nth_error s i = Some c -> skipn i s = c :: skipn (S i) s.
Proof.
  revert i. induction s as [|x s IH]; intros [|i] H; try discriminate.
  - now inversion H.
  - cbn in H. rewrite skipn_cons. now apply IH.
Qed.

Lemma nth_error_none_skipn (s : str) (i : nat) :
  nth_error s i = None -> skipn i s = [].
Proof. intros H. apply skipn_all2. now apply nth_error_None. Qed.

Lemma skipn_cons_lt (s : str) (i : nat) (c : char) (rest : str) :
  skipn i s = c :: rest -> i < length s.
Proof.
  intros H. destruct (Nat.lt_ge_cases i (length s)) as [Hlt|Hge]; [exact Hlt|].
  rewrite (skipn_all2 s Hge) in H. discriminate.
Qed.

Lemma strip_nil : strip [] = [].
Proof. reflexivity. Qed.

(** ** [normalize_text] *)

Lemma replace_go_absent (a : char) (old new s : str) :
  ~ In a s -> replace_go (a :: old) new s 0 = s.
Proof.
  induction s as [|c s IH]; intros Hin; [reflexivity|].
  cbn [replace_go startswith].
  destruct (N.eqb_spec a c) as [->|Hne].
  - exfalso. apply Hin. now left.
  - cbn. f_equal. apply IH. intro H. apply Hin. now right.
Qed.

Lemma replace_go_single (a b : char) (s : str) :
  replace_go [a] [b] s 0 = map (fun c => if (a =? c)%N then b else c) s.
Proof.
  induction s as [|c s IH]; [reflexivity|].
  cbn [replace_go startswith map Datatypes.length].
  destruct (N.eqb_spec a c) as [->|Hne]; cbn; now rewrite IH.
Qed.

Lemma replace_single_not_in (a b : char) (s : str) :
  a <> b -> ~ In a (str_replace [a] [b] s).
Proof.
  intros Hab. unfold str_replace. rewrite replace_go_single.
  rewrite in_map_iff. intros (c & Hc & _).
  destruct (N.eqb_spec a c); congruence.
Qed.

Lemma replace_single_keeps_out (a b x : char) (s : str) :
  x <> b -> ~ In x s -> ~ In x (str_replace [a] [b] s).
Proof.
  intros Hxb Hx. unfold str_replace. rewrite replace_go_single.
  rewrite in_map_iff. intros (c & Hc & Hin).
  destruct (N.eqb_spec a c); subst; auto.
Qed.

Lemma normalize_text_no_cr (t : str) : ~ In CR (normalize_text t).
Proof.
  unfold normalize_text.
  apply replace_single_keeps_out; [discriminate|].
  apply replace_single_not_in. discriminate.
Qed.

Lemma normalize_text_no_nbsp (t : str) : ~ In NBSP (normalize_text t).
Proof. unfold normalize_text. apply replace_single_not_in. discriminate. Qed.

Lemma normalize_text_fixed (t : str) :
  ~ In CR t -> ~ In NBSP t -> normalize_text t = t.
Proof.
  intros Hcr Hnb. unfold normalize_text, str_replace.
  rewrite (replace_go_absent CR [LF] [LF] t Hcr).
  rewrite (replace_go_absent CR [] [LF] t Hcr).
  now rewrite (replace_go_absent NBSP [] [SP] t Hnb).
Qed.

(** Normalising twice is normalising once, whatever the text holds. *)
Lemma normalize_text_twice (t : str) :
  normalize_text (normalize_text t) = normalize_text t.
Proof.
  apply normalize_text_fixed;
    [apply normalize_text_no_cr | apply normalize_text_no_nbsp].
Qed.

(** C8. A text with no carriage return and no non-breaking space is
    returned unchanged by [normalize_text], and normalising such a text twice
    gives what normalising it once gives. *)
Theorem normalize_text_idempotent (t : str) :
  ~ In CR t -> ~ In NBSP t ->
  normalize_text t = t
  /\ normalize_text (normalize_text t) = normalize_text t.
Proof.
  intros Hcr Hnb. split.
  - now apply normalize_text_fixed.
  - apply normalize_text_twice.
Qed.

Lemma normalize_text_idempotent_witness :
  let t := py "Findings: normal" ++ [LF] ++ py "Impression: none" in
  normalize_text t = t
  /\ normalize_text (normalize_text t) = normalize_text t.
Proof.
  apply normalize_text_idempotent; intros H; vm_compute in H;
    repeat (destruct H as [H|H]; [discriminate H|]); exact H.
Defined.

(** ** The matching engine *)

Lemma search_from_spec (r : regex) (s : str) (fuel : nat) :
  forall i,
    match search_from r s i fuel with
    | Some (p, j, g) =>
        i <= p <= i + fuel
        /\ match_at r s p = Some (j, g)
        /\ forall q, i <= q < p -> match_at r s q = None
    | None => forall q, i <= q <= i + fuel -> match_at r s q = None
    end.
Proof.
  induction fuel as [|fuel IH]; intros i; cbn [search_from].
  - destruct (match_at r s i) as [[j g]|] eqn:Hm.
    + split; [lia|]. split; [exact Hm|]. intros q Hq. lia.
    + intros q Hq. assert (q = i) as -> by lia. exact Hm.
  - destruct (match_at r s i) as [[j g]|] eqn:Hm.
    + split; [lia|]. split; [exact Hm|]. intros q Hq. lia.
    + specialize (IH (S i)).
      destruct (search_from r s (S i) fuel) as [[[p j] g]|].
      * destruct IH as (Hp & Hat & Hbefore).
        split; [lia|]. split; [exact Hat|].
        intros q Hq. destruct (Nat.eq_dec q i) as [->|Hne]; [exact Hm|].
        apply Hbefore. lia.
      * intros q Hq. destruct (Nat.eq_dec q i) as [->|Hne]; [exact Hm|].
        apply IH. lia.
Qed.

Lemma re_search_some (r : regex) (s : str) (i j : nat) (g : capture) :
  re_search r s = Some (i, j, g) -> leftmost r s i j g.
Proof.
  unfold re_search. intros H.
  pose proof (search_from_spec r s (length s) 0) as Hs. rewrite H in Hs.
  destruct Hs as (Hi & Hat & Hbefore).
  split; [lia|]. split; [exact Hat|].
  intros q Hq. apply Hbefore. lia.
Qed.

Lemma re_search_none (r : regex) (s : str) :
  re_search r s = None -> no_match r s.
Proof.
  unfold re_search. intros H q Hq.
  pose proof (search_from_spec r s (length s) 0) as Hs. rewrite H in Hs.
  apply Hs. lia.
Qed.

(** A match somewhere makes the search succeed, at that offset or before. *)
Lemma re_search_finds (r : regex) (s : str) (p : nat) :
  p <= length s -> match_at r s p <> None ->
  exists i j g, re_search r s = Some (i, j, g) /\ i <= p.
Proof.
  intros Hp Hm. destruct (re_search r s) as [[[i j] g]|] eqn:Hs.
  - exists i, j, g. split; [reflexivity|].
    destruct (re_search_some _ _ _ _ _ Hs) as (_ & _ & Hbefore).
    destruct (Nat.le_gt_cases i p) as [Hle|Hgt]; [exact Hle|].
    exfalso. apply Hm. now apply Hbefore.
  - exfalso. apply Hm. now apply (re_search_none _ _ Hs).
Qed.

Lemma leftmost_unique (r : regex) (s : str) (i j i' j' : nat) (g g' : capture) :
  leftmost r s i j g -> leftmost r s i' j' g' -> i = i' /\ j = j' /\ g = g'.
Proof.
  intros (Hi & Hm & Hb) (Hi' & Hm' & Hb').
  assert (i = i') as <-.
  { destruct (Nat.lt_trichotomy i i') as [Hlt|[Heq|Hgt]]; [|exact Heq|].
    - rewrite (Hb' _ Hlt) in Hm. discriminate.
    - rewrite (Hb _ Hgt) in Hm'. discriminate. }
  rewrite Hm in Hm'. inversion Hm'. auto.
Qed.

(** A word of literal characters matches where the text starts with it. *)
Lemma run_lits (w s : str) (g : capture) (k : nat -> capture -> matched) :
  forall i,
    run (lits w) s i g k
    = if startswith w (skipn i s) then k (i + length w) g else None.
Proof.
  induction w as [|p w IH]; intros i.
  - cbn. now rewrite Nat.add_0_r.
  - change (lits (p :: w)) with (Seq (Chr (N.eqb p)) (lits w)).
    cbn [run]. destruct (nth_error s i) as [c|] eqn:Hc.
    + rewrite (nth_error_skipn_cons _ _ _ Hc). cbn [startswith].
      destruct (p =? c)%N; cbn [andb]; [|reflexivity].
      rewrite IH. cbn [Datatypes.length]. now rewrite Nat.add_succ_r.
    + now rewrite (nth_error_none_skipn _ _ Hc).
Qed.

(** [^] outside [re.MULTILINE] anchors a pattern at offset 0, so that
    [re.sub] finds at most the match there. *)
Lemma sub_del_anchored_tail (r : regex) (s rest : str) (i : nat) :
  sub_del_go (Seq Bos r) s rest (S i) 0 = rest.
Proof.
  revert i. induction rest as [|c rest IH]; intros i; [reflexivity|].
  cbn [sub_del_go]. unfold match_at. cbn [run Nat.eqb]. now rewrite IH.
Qed.

Lemma sub_del_skip (r : regex) (s : str) :
  forall rest i skip,
    skip <= length rest ->
    sub_del_go r s (skipn skip rest) (i + skip) 0 = skipn skip rest ->
    sub_del_go r s rest i skip = skipn skip rest.
Proof.
  induction rest as [|c rest IH]; intros i skip Hlen Htail.
  - destruct skip; reflexivity.
  - destruct skip as [|skip].
    + rewrite Nat.add_0_r in Htail. exact Htail.
    + cbn [sub_del_go skipn]. apply IH; [cbn in Hlen; lia|].
      cbn [skipn] in Htail. now rewrite Nat.add_succ_r in Htail.
Qed.

Lemma backoff_first (k : nat -> matched) (base extra : nat) (m : nat * capture) :
  k (base + extra) = Some m -> backoff k base extra = Some m.
Proof. intros H. destruct extra; cbn [backoff]; now rewrite H. Qed.

(** ** [extract_patient_name] *)

Section NameProperties.

Context {U : Unicode}.

Lemma run_ilits (w s : str) (g : capture) (k : nat -> capture -> matched) :
  forall i,
    run (ilits w) s i g k
    = if ci_prefix w (skipn i s) then k (i + length w) g else None.
Proof.
  induction w as [|p w IH]; intros i.
  - cbn. now rewrite Nat.add_0_r.
  - change (ilits (p :: w)) with (Seq (Chr (u_ieq p)) (ilits w)).
    cbn [run]. destruct (nth_error s i) as [c|] eqn:Hc.
    + rewrite (nth_error_skipn_cons _ _ _ Hc). cbn [ci_prefix].
      destruct (u_ieq p c); cbn [andb]; [|reflexivity].
      rewrite IH. cbn [Datatypes.length]. now rewrite Nat.add_succ_r.
    + now rewrite (nth_error_none_skipn _ _ Hc).
Qed.

(** Wherever the letters d, o, b stand in a line, in any case, the
    separator pattern has a match. *)
Lemma separators_match_dob (line : str) (p : nat) :
  ci_prefix (py "dob") (skipn p line) = true ->
  match_at separators line p <> None.
Proof.
  intros H. unfold match_at, separators. cbn [run].
  match goal with
  | |- context [match ?x with Some m => Some m | None => _ end] =>
      destruct x
  end; [discriminate|].
  rewrite run_ilits, H. discriminate.
Qed.

Lemma split_head_before_dob (line : str) (p : nat) :
  ci_prefix (py "dob") (skipn p line) = true ->
  exists q, q <= p /\ re_split_head separators line = firstn q line.
Proof.
  intros H.
  assert (p <= length line) as Hp.
  { destruct (skipn p line) as [|c rest] eqn:Hsk; [discriminate H|].
    apply Nat.lt_le_incl. exact (skipn_cons_lt _ _ _ _ Hsk). }
  destruct (re_search_finds separators line p Hp (separators_match_dob _ _ H))
    as (i & j & g & Hs & Hle).
  exists i. split; [exact Hle|]. unfold re_split_head. now rewrite Hs.
Qed.

Lemma name_from_some (pat : regex) (norm v : str) :
  name_from pat norm = Some v -> tier_accepts pat norm v.
Proof.
  unfold name_from. destruct (re_search pat norm) as [[[i j] g]|] eqn:Hs;
    [|discriminate].
  destruct (acceptable (name_candidate (group1 norm g))) eqn:Hacc;
    [|discriminate].
  intros H. inversion H; subst v. exists i, j, g.
  split; [now apply re_search_some|]. now split.
Qed.

Lemma name_from_none (pat : regex) (norm : str) :
  name_from pat norm = None -> tier_rejects pat norm.
Proof.
  unfold name_from. destruct (re_search pat norm) as [[[i j] g]|] eqn:Hs.
  - destruct (acceptable (name_candidate (group1 norm g))) eqn:Hacc;
      [discriminate|].
    intros _. right. exists i, j, g. split; [now apply re_search_some|exact Hacc].
  - intros _. left. now apply re_search_none.
Qed.

(** A pattern cannot both yield a name and yield none, and the name it
    yields is determined. *)
Lemma tier_exclusive (pat : regex) (norm v : str) :
  tier_accepts pat norm v -> ~ tier_rejects pat norm.
Proof.
  intros (i & j & g & Hl & Hv & Hacc) [Hno|(i' & j' & g' & Hl' & Hrej)].
  - destruct Hl as (Hi & Hm & _). rewrite (Hno i Hi) in Hm. discriminate.
  - destruct (leftmost_unique _ _ _ _ _ _ _ _ Hl Hl') as (_ & _ & <-).
    subst v. congruence.
Qed.

Lemma tier_accepts_unique (pat : regex) (norm v w : str) :
  tier_accepts pat norm v -> tier_accepts pat norm w -> v = w.
Proof.
  intros (i & j & g & Hl & Hv & _) (i' & j' & g' & Hl' & Hw & _).
  destruct (leftmost_unique _ _ _ _ _ _ _ _ Hl Hl') as (_ & _ & <-).
  congruence.
Qed.

Lemma tier_accepts_bounds (pat : regex) (norm v : str) :
  tier_accepts pat norm v -> 0 < length v <= 80.
Proof.
  intros (_ & _ & _ & _ & _ & Hacc). unfold acceptable in Hacc.
  apply andb_true_iff in Hacc as [H1 H2].
  apply Nat.ltb_lt in H1. apply Nat.leb_le in H2. lia.
Qed.

Lemma first_name_some (pats : list regex) (norm v : str) :
  first_name pats norm = Some v ->
  exists before pat after,
    pats = before ++ pat :: after
    /\ Forall (fun p => tier_rejects p norm) before
    /\ tier_accepts pat norm v.
Proof.
  induction pats as [|pat pats IH]; cbn [first_name]; [discriminate|].
  destruct (name_from pat norm) as [line|] eqn:Hn.
  - intros H. inversion H; subst line.
    exists [], pat, pats. split; [reflexivity|]. split; [constructor|].
    now apply name_from_some.
  - intros H. destruct (IH H) as (before & pat' & after & -> & Hrej & Hacc).
    exists (pat :: before), pat', after. split; [reflexivity|].
    split; [|exact Hacc]. constructor; [now apply name_from_none|exact Hrej].
Qed.

Lemma first_name_none (pats : list regex) (norm : str) :
  first_name pats norm = None -> Forall (fun p => tier_rejects p norm) pats.
Proof.
  induction pats as [|pat pats IH]; cbn [first_name]; [constructor|].
  destruct (name_from pat norm) as [line|] eqn:Hn; [discriminate|].
  intros H. constructor; [now apply name_from_none|now apply IH].
Qed.

(** C1, as the code has it. The patterns are tried in order, each on its
    leftmost match only; the name is the one cut out of the leftmost match
    of the first pattern whose candidate has a length in 1..80, every
    pattern before it having no match or a candidate of another length; the
    result is "Unknown" exactly when every pattern is in that case. A
    pattern whose candidate is refused does not end the search: the next
    pattern is tried. *)
Theorem extract_patient_name_first_accepting_tier (text : str) :
  let norm := normalize_text text in
  (exists before pat after v,
     patterns = before ++ pat :: after
     /\ Forall (fun p => tier_rejects p norm) before
     /\ tier_accepts pat norm v
     /\ 0 < length v <= 80
     /\ extract_patient_name text = v)
  \/ (Forall (fun p => tier_rejects p norm) patterns
      /\ extract_patient_name text = py "Unknown").
Proof.
  intros norm. unfold extract_patient_name. fold norm.
  destruct (first_name patterns norm) as [v|] eqn:Hf.
  - left. destruct (first_name_some _ _ _ Hf) as (before & pat & after & Hp & Hrej & Hacc).
    exists before, pat, after, v. repeat split; try assumption;
      apply (tier_accepts_bounds _ _ _ Hacc).
  - right. split; [now apply first_name_none|reflexivity].
Qed.

(** C10. The letters d, o, b, in any case and at any place of the trimmed
    captured remainder, cut the candidate name: what is kept is the text
    before some offset not after theirs. When they open the remainder the
    candidate is empty, and the pattern that captured it yields no name. *)
Theorem dob_truncates_name (captured : str) (p : nat) :
  ci_prefix (py "dob") (skipn p (strip captured)) = true ->
  (exists q,
     q <= p /\ name_candidate captured = strip (firstn q (strip captured)))
  /\ (p = 0 ->
      name_candidate captured = []
      /\ forall pat norm i j g,
           re_search pat norm = Some (i, j, g) ->
           group1 norm g = captured ->
           name_from pat norm = None).
Proof.
  intros H. destruct (split_head_before_dob _ _ H) as (q & Hq & Hsplit).
  assert (name_candidate captured = strip (firstn q (strip captured))) as Hc.
  { unfold name_candidate. now rewrite Hsplit. }
  split; [now exists q|].
  intros ->. assert (q = 0) as -> by lia. cbn [firstn] in Hc.
  rewrite strip_nil in Hc. split; [exact Hc|].
  intros pat norm i j g Hs Hg. unfold name_from. rewrite Hs, Hg, Hc.
  reflexivity.
Qed.

End NameProperties.

Lemma dob_truncates_name_witness :
  name_candidate (U := ascii_tables) (py "Dobson") = []
  /\ name_from (U := ascii_tables)
       (label_pattern (py "name")) (py "Name: Dobson") = None.
Proof.
  pose proof (dob_truncates_name (U := ascii_tables) (py "Dobson") 0 eq_refl)
    as [_ H].
  destruct (H eq_refl) as [Hc Hn]. split; [exact Hc|].
  apply (Hn _ _ 0 12 (Some (6, 12))); reflexivity.
Defined.

(** On a report whose name line holds only a date of birth and whose next
    line is labelled "Patient:", the first pattern matches and its candidate
    is refused; the code goes on to the second pattern and returns its name. *)
Lemma first_match_does_not_decide :
  let text := py "Patient Name: DOB 1/1/1970" ++ [LF] ++ py "Patient: Jane Roe" in
  extract_patient_name (U := ascii_tables) text = py "Jane Roe"
  /\ first_match_decides (U := ascii_tables) patterns (normalize_text text)
     = py "Unknown".
Proof. split; vm_compute; reflexivity. Qed.

(** ** [extract_section_by_heading] *)

Section SectionProperties.

Context {U : Unicode}.

Lemma body_end_unique (low : str) (start n : nat) (stops : list str) (e e' : nat) :
  body_end low start n stops e -> body_end low start n stops e' -> e = e'.
Proof.
  intros (Hn & Hmin & Hwit) (Hn' & Hmin' & Hwit').
  apply Nat.le_antisymm.
  - destruct Hwit' as [->|(kw & p & Hin & Hp & Hm & ->)]; [exact Hn|].
    now apply (Hmin kw p).
  - destruct Hwit as [->|(kw & p & Hin & Hp & Hm & ->)]; [exact Hn'|].
    now apply (Hmin' kw p).
Qed.

Lemma stop_offset_spec (low : str) (start acc : nat) (kw : str) :
  let rest := skipn start low in
  let e := stop_offset low start acc kw in
  e <= acc
  /\ (forall p,
        p <= length rest -> match_at (stop_pattern kw) rest p <> None ->
        e <= start + p)
  /\ (e = acc
      \/ exists p,
           p <= length rest /\ match_at (stop_pattern kw) rest p <> None
           /\ e = start + p).
Proof.
  intros rest e. subst e. unfold stop_offset. fold rest.
  destruct (re_search (stop_pattern kw) rest) as [[[ms j] g]|] eqn:Hs.
  - destruct (re_search_some _ _ _ _ _ Hs) as (Hms & Hm & Hb).
    assert (forall p, match_at (stop_pattern kw) rest p <> None -> ms <= p) as Hleast.
    { intros p Hp. destruct (Nat.le_gt_cases ms p) as [Hle|Hgt]; [exact Hle|].
      exfalso. apply Hp. now apply Hb. }
    destruct (start + ms <? acc) eqn:Hlt.
    + apply Nat.ltb_lt in Hlt. split; [lia|]. split.
      * intros p _ Hp. specialize (Hleast p Hp). lia.
      * right. exists ms. split; [exact Hms|]. split; [|reflexivity].
        rewrite Hm. discriminate.
    + apply Nat.ltb_ge in Hlt. split; [lia|]. split.
      * intros p _ Hp. specialize (Hleast p Hp). lia.
      * now left.
  - split; [lia|]. split.
    + intros p Hp Hm. exfalso. apply Hm. now apply (re_search_none _ _ Hs).
    + now left.
Qed.

Lemma fold_stop_offset_spec (low : str) (start : nat) (stops : list str) :
  forall acc,
    body_end low start acc stops (fold_left (stop_offset low start) stops acc).
Proof.
  induction stops as [|kw stops IH]; intros acc; cbn [fold_left].
  - split; [lia|]. split; [intros kw p []|now left].
  - destruct (stop_offset_spec low start acc kw) as (Hle & Hmin & Hwit).
    destruct (IH (stop_offset low start acc kw)) as (Hle' & Hmin' & Hwit').
    split; [lia|]. split.
    + intros kw' p [<-|Hin] Hp Hm.
      * specialize (Hmin p Hp Hm). lia.
      * now apply (Hmin' kw' p).
    + destruct Hwit' as [He|(kw' & p & Hin & Hp & Hm & He)].
      * rewrite He. destruct Hwit as [->|(p & Hp & Hm & ->)]; [now left|].
        right. exists kw, p. repeat split; try assumption. now left.
      * right. exists kw', p. repeat split; try assumption. now right.
Qed.

(** The heading pattern has no match in the empty text. *)
Lemma heading_not_in_empty (heading : str) :
  no_match (heading_pattern heading) [].
Proof.
  intros q Hq. cbn in Hq. assert (q = 0) as -> by lia.
  unfold match_at, heading_pattern.
  cbn [chain fold_right run at_line_start span skipn Nat.ltb Nat.leb backoff
       Nat.add Nat.sub].
  destruct heading as [|c heading]; [reflexivity|].
  cbn [word_pattern map chain fold_right run]. cbn [nth_error].
  destruct (c =? 46)%N; reflexivity.
Qed.

(** The two ways the function ends. *)
Lemma extract_section_cases (text heading : str) (stops : list str) :
  let norm := normalize_text text in
  let low := u_lower norm in
  (no_match (heading_pattern heading) low
   /\ extract_section_by_heading text heading stops = None)
  \/ (exists i start g e,
        leftmost (heading_pattern heading) low i start g
        /\ body_end low start (length norm) stops e
        /\ extract_section_by_heading text heading stops
           = let body := strip (slice norm start e) in
             if nonempty body then Some body else None).
Proof.
  intros norm low. unfold extract_section_by_heading. fold norm. fold low.
  destruct text as [|c text].
  - left. split; [|reflexivity]. subst low norm.
    change (normalize_text []) with (@nil char). rewrite u_lower_nil.
    apply heading_not_in_empty.
  - cbn [nonempty negb].
    destruct (re_search (heading_pattern heading) low) as [[[i start] g]|] eqn:Hs.
    + right. exists i, start, g.
      exists (fold_left (stop_offset low start) stops (length norm)).
      split; [now apply re_search_some|].
      split; [apply fold_stop_offset_spec|reflexivity].
    + left. split; [now apply re_search_none|reflexivity].
Qed.

Lemma nonempty_false (s : str) : nonempty s = false <-> s = [].
Proof. destruct s; cbn; split; intros H; congruence. Qed.

(** A section that is found is never empty. *)
Lemma extract_section_nonempty (text heading : str) (stops : list str) (body : str) :
  extract_section_by_heading text heading stops = Some body -> body <> [].
Proof.
  destruct (extract_section_cases text heading stops)
    as [[_ Hres]|(i & start & g & e & _ & _ & Hres)];
    rewrite Hres; [discriminate|].
  cbn zeta. destruct (strip (slice (normalize_text text) start e));
    cbn [nonempty]; [discriminate|].
  intros H. inversion H. discriminate.
Qed.

End SectionProperties.

(** The example of the specification, on the ASCII tables. *)
Example extract_section_example :
  extract_section_by_heading (U := ascii_tables)
    (py "FINDINGS: mild edema noted. IMPRESSION: stable.")
    (py "findings") [py "impression"; py "conclusion"]
  = Some (py "mild edema noted.").
Proof. vm_compute. reflexivity. Qed.

(** ** The choice of the text handed to the classifier *)

Section SelectionProperties.

Context {U : Unicode}.

(** C2, as the code has it. Findings, when found, are handed to the
    classifier with the label "findings"; otherwise the impression, when
    found, with the label "impression"; otherwise the full text of the
    report as it was loaded, not normalised, with the label "full_report". *)
Theorem select_section_priority (full_text : str) :
  let findings_text := extract_findings_section full_text in
  let impression_text := extract_impression_section full_text in
  let chosen := select_section findings_text impression_text full_text in
  (forall body,
     findings_text = Some body ->
     chosen = (body, py "findings", UsingFindings))
  /\ (forall body,
        findings_text = None -> impression_text = Some body ->
        chosen = (body, py "impression", UsingImpression))
  /\ (findings_text = None -> impression_text = None ->
      chosen = (full_text, py "full_report", UsingFullReport)).
Proof.
  intros findings_text impression_text chosen. subst chosen.
  split; [|split].
  - intros body Hf. rewrite Hf.
    pose proof (extract_section_nonempty _ _ _ _ Hf) as Hne.
    destruct body; [congruence|reflexivity].
  - intros body Hf Hi. rewrite Hf, Hi.
    pose proof (extract_section_nonempty _ _ _ _ Hi) as Hne.
    destruct body; [congruence|reflexivity].
  - intros Hf Hi. now rewrite Hf, Hi.
Qed.

End SelectionProperties.

Lemma select_section_priority_witness :
  select_section
    (extract_findings_section (U := ascii_tables) demo_text)
    (extract_impression_section (U := ascii_tables) demo_text) demo_text
  = (py "no acute abnormality.", py "findings", UsingFindings).
Proof.
  exact (proj1 (select_section_priority (U := ascii_tables) demo_text)
           (py "no acute abnormality.") eq_refl).
Defined.

(** A report with a non-breaking space and no heading: the text handed to
    the classifier still holds the character that [normalize_text] would
    have replaced. *)
Lemma full_report_is_not_normalized :
  let full_text := py "Brain" ++ [NBSP] ++ py "MRI: no abnormality seen." in
  let findings_text := extract_findings_section (U := ascii_tables) full_text in
  let impression_text := extract_impression_section (U := ascii_tables) full_text in
  findings_text = None
  /\ impression_text = None
  /\ fst (fst (select_section findings_text impression_text full_text))
     = full_text
  /\ full_text <> normalize_text full_text.
Proof.
  vm_compute. repeat split; try reflexivity. discriminate.
Qed.

(** ** [summarize_section_structured] *)

Section ClassifierProperties.

Variable json_loads : str -> result pyval.

Lemma normalize_response_decode_error (output_text section_text : str) :
  json_loads (response_content output_text) = Raise JSONDecodeError ->
  normalize_response json_loads output_text section_text
  = Ret (fallback_record section_text (response_content output_text)).
Proof.
  intros H. unfold normalize_response. fold (response_content output_text).
  now rewrite H.
Qed.

Lemma normalize_response_parsed (output_text section_text : str) (data : pyval) :
  json_loads (response_content output_text) = Ret data ->
  normalize_response json_loads output_text section_text = Ret data.
Proof.
  intros H. unfold normalize_response. fold (response_content output_text).
  now rewrite H.
Qed.

(** The function raises only what the parser raises beyond its decode
    error: with a parser that raises nothing else, it always returns. *)
Lemma normalize_response_returns (output_text section_text : str) :
  (forall s e, json_loads s = Raise e -> e = JSONDecodeError) ->
  exists data,
    normalize_response json_loads output_text section_text = Ret data.
Proof.
  intros Honly. unfold normalize_response.
  fold (response_content output_text).
  destruct (json_loads (response_content output_text)) as [data|e] eqn:H.
  - now exists data.
  - rewrite (Honly _ _ H). eexists. reflexivity.
Qed.

(** *** A fenced response *)

Lemma lstrip_head (s : str) :
  match lstrip s with
  | c :: _ => is_space c = false
  | [] => True
  end.
Proof.
  induction s as [|c s IH]; cbn [lstrip]; [exact I|].
  destruct (is_space c) eqn:Hc; [exact IH|exact Hc].
Qed.

Lemma stripped_head (body : str) :
  strip body = body -> body <> [] ->
  exists c rest, body = c :: rest /\ is_space c = false.
Proof.
  intros Hs Hne. pose proof (lstrip_head (rstrip body)) as H.
  fold (strip body) in H. rewrite Hs in H.
  destruct body as [|c rest]; [congruence|]. now exists c, rest.
Qed.

Lemma rstrip_last (s : str) (c : char) :
  is_space c = false -> rstrip (s ++ [c]) = s ++ [c].
Proof.
  intros Hc. unfold rstrip. rewrite rev_app_distr. cbn [rev app lstrip].
  rewrite Hc. cbn [rev]. now rewrite rev_involutive.
Qed.

Lemma rstrip_space (s : str) (c : char) :
  is_space c = true -> rstrip (s ++ [c]) = rstrip s.
Proof.
  intros Hc. unfold rstrip. rewrite rev_app_distr. cbn [rev app lstrip].
  now rewrite Hc.
Qed.

Lemma span_letters (tag rest : str) :
  forallb ascii_isalpha tag = true ->
  span ascii_isalpha (tag ++ LF :: rest) = length tag.
Proof.
  induction tag as [|c tag IH]; cbn [forallb app span Datatypes.length];
    [reflexivity|].
  intros H. apply andb_true_iff in H as [Hc Htag]. rewrite Hc.
  now rewrite IH.
Qed.

Lemma match_fence_open (tag rest : str) :
  forallb ascii_isalpha tag = true ->
  match_at fence_open (py "```" ++ tag ++ LF :: rest) 0
  = Some (3 + length tag, None).
Proof.
  intros Htag. unfold match_at, fence_open. cbn [chain fold_right run Nat.eqb].
  rewrite run_lits.
  change (skipn 0 (py "```" ++ tag ++ LF :: rest))
    with (py "```" ++ tag ++ LF :: rest).
  change (startswith (py "```") (py "```" ++ tag ++ LF :: rest)) with true.
  cbn iota. change (0 + Datatypes.length (py "```")) with 3.
  cbn [run].
  change (skipn 3 (py "```" ++ tag ++ LF :: rest)) with (tag ++ LF :: rest).
  rewrite (span_letters _ _ Htag).
  change (Datatypes.length tag <? 0) with false. cbn iota.
  apply backoff_first. rewrite Nat.sub_0_r. reflexivity.
Qed.

(** The opening fence and its language tag are what [re.sub] deletes. *)
Lemma sub_del_fence_open (tag rest : str) :
  forallb ascii_isalpha tag = true ->
  re_sub_del fence_open (py "```" ++ tag ++ LF :: rest) = LF :: rest.
Proof.
  intros Htag. unfold re_sub_del.
  pose proof (match_fence_open tag rest Htag) as Hm.
  set (s := py "```" ++ tag ++ LF :: rest) in *.
  assert (s = 96%N :: ([96%N; 96%N] ++ tag) ++ LF :: rest) as Hs by reflexivity.
  rewrite Hs at 2. cbn [sub_del_go]. rewrite Hm.
  change (0 <? 3 + Datatypes.length tag) with true. cbn iota.
  change (3 + Datatypes.length tag - 0 - 1)
    with (length ([96%N; 96%N] ++ tag)).
  change fence_open
    with (Seq Bos (chain [lits (py "```"); Rep ascii_isalpha 0])).
  assert (skipn (length ([96%N; 96%N] ++ tag))
            (([96%N; 96%N] ++ tag) ++ LF :: rest) = LF :: rest) as Hskip.
  { now rewrite skipn_app, skipn_all, Nat.sub_diag. }
  rewrite sub_del_skip.
  - exact Hskip.
  - rewrite !length_app. cbn [Datatypes.length]. lia.
  - apply sub_del_anchored_tail.
Qed.

Lemma response_content_fenced (tag body : str) :
  forallb ascii_isalpha tag = true ->
  strip body = body -> body <> [] ->
  response_content (py "```" ++ tag ++ [LF] ++ body ++ [LF] ++ py "```") = body.
Proof.
  intros Htag Hs Hne.
  destruct (stripped_head body Hs Hne) as (c & rest & Hbody & Hc).
  unfold response_content.
  set (inner := body ++ [LF] ++ py "```").
  assert (forall pre, rstrip (pre ++ inner) = pre ++ inner) as Hr.
  { intros pre. subst inner.
    change (py "```") with ([96%N; 96%N] ++ [96%N]).
    rewrite !app_assoc. now apply rstrip_last. }
  assert (strip (py "```" ++ tag ++ [LF] ++ inner)
          = py "```" ++ tag ++ [LF] ++ inner) as Hraw.
  { unfold strip.
    replace (py "```" ++ tag ++ [LF] ++ inner)
      with ((py "```" ++ tag ++ [LF]) ++ inner) by now rewrite <- !app_assoc.
    rewrite Hr. reflexivity. }
  rewrite Hraw. unfold strip_fences.
  change (startswith (py "```") (py "```" ++ tag ++ [LF] ++ inner)) with true.
  cbn iota. change ([LF] ++ inner) with (LF :: inner).
  rewrite (sub_del_fence_open _ _ Htag).
  assert (strip (LF :: inner) = inner) as Hinner.
  { unfold strip. change (LF :: inner) with ([LF] ++ inner). rewrite Hr.
    cbn [app lstrip]. change (is_space LF) with true. cbn iota.
    subst inner. rewrite Hbody. cbn [app lstrip]. now rewrite Hc. }
  rewrite Hinner.
  assert (endswith (py "```") inner = true) as He.
  { unfold endswith. subst inner. rewrite !rev_app_distr. reflexivity. }
  rewrite He. subst inner. rewrite !app_assoc, length_app.
  change (Datatypes.length (py "```")) with 3.
  rewrite Nat.add_sub, firstn_app, firstn_all, Nat.sub_diag. cbn [firstn].
  rewrite app_nil_r. unfold strip.
  rewrite rstrip_space by reflexivity. exact Hs.
Qed.

(** A response that is a record inside a code fence is freed of the fence
    and returned as parsed: nothing is added to it and nothing is checked. *)
Lemma normalize_response_fenced (tag body section_text : str) (data : pyval) :
  forallb ascii_isalpha tag = true ->
  strip body = body -> body <> [] ->
  json_loads body = Ret data ->
  normalize_response json_loads
    (py "```" ++ tag ++ [LF] ++ body ++ [LF] ++ py "```") section_text
  = Ret data.
Proof.
  intros Htag Hs Hne Hparse. apply normalize_response_parsed.
  now rewrite (response_content_fenced _ _ Htag Hs Hne).
Qed.

(** C4, as the code names the field. When the content of the response is
    not a JSON document, the result is exactly the fallback record: the
    first 300 characters of the section text, followed by "..." exactly
    when that text is longer; "uncertain"; 3; and, under the key
    "raw_llm_output", the trimmed content freed of its code fence. *)
Theorem fallback_record_on_decode_error (output_text section_text : str) :
  json_loads (response_content output_text) = Raise JSONDecodeError ->
  normalize_response json_loads output_text section_text
  = Ret (PDict
           [ (py "summary",
              PStr (firstn 300 section_text
                    ++ (if 300 <? length section_text then py "..." else [])));
             (py "severity_label", PStr (py "uncertain"));
             (py "severity_score", PInt 3);
             (py "raw_llm_output", PStr (response_content output_text)) ])
  /\ (length section_text <= 300 ->
      firstn 300 section_text
      ++ (if 300 <? length section_text then py "..." else [])
      = section_text)
  /\ (300 < length section_text ->
      firstn 300 section_text
      ++ (if 300 <? length section_text then py "..." else [])
      = firstn 300 section_text ++ py "...").
Proof.
  intros H. split; [now apply normalize_response_decode_error|]. split.
  - intros Hlen. apply Nat.ltb_ge in Hlen as Hb. rewrite Hb, app_nil_r.
    now apply firstn_all2.
  - intros Hlen. apply Nat.ltb_lt in Hlen as Hb. now rewrite Hb.
Qed.

(** C3, as the code has it. When the content of the response is not a JSON
    document, the record carries the label "uncertain" and the score 3, both
    within their domains, and the row is built from them. When the content
    is a JSON object, it is returned as parsed: a severity field it lacks is
    replaced by "uncertain" or 3 when the row is built, and a field it holds
    is taken as it is, whatever its value. *)
Theorem severity_fields_of_response (output_text section_text : str) :
  (json_loads (response_content output_text) = Raise JSONDecodeError ->
   exists d summary,
     normalize_response json_loads output_text section_text = Ret (PDict d)
     /\ dict_find d (py "severity_label") = Some (PStr (py "uncertain"))
     /\ dict_find d (py "severity_score") = Some (PInt 3)
     /\ valid_label (PStr (py "uncertain")) = true
     /\ valid_score (PInt 3) = true
     /\ report_fields (PDict d) = Ret (summary, PStr (py "uncertain"), PInt 3))
  /\ (forall d,
        json_loads (response_content output_text) = Ret (PDict d) ->
        normalize_response json_loads output_text section_text = Ret (PDict d)
        /\ forall summary label score,
             report_fields (PDict d) = Ret (summary, label, score) ->
             label = dict_get d (py "severity_label") (PStr (py "uncertain"))
             /\ score = dict_get d (py "severity_score") (PInt 3)
             /\ (dict_find d (py "severity_label") = None ->
                 valid_label label = true)
             /\ (dict_find d (py "severity_score") = None ->
                 valid_score score = true)).
Proof.
  split.
  - intros H. rewrite (normalize_response_decode_error _ section_text H).
    unfold fallback_record. eexists. eexists.
    split; [reflexivity|]. repeat split; reflexivity.
  - intros d H. split; [now apply normalize_response_parsed|].
    intros summary label score. unfold report_fields. cbn [py_get bind].
    destruct (py_strip (dict_get d (py "summary") (PStr []))) as [s|e];
      cbn [bind]; [|discriminate].
    intros Hr. inversion Hr; subst. split; [reflexivity|].
    split; [reflexivity|]. unfold dict_get. split.
    + intros ->. reflexivity.
    + intros ->. reflexivity.
Qed.

End ClassifierProperties.

Lemma fallback_record_on_decode_error_witness :
  normalize_response Json.loads (py "not json at all") (py "Findings: normal")
  = Ret (PDict
           [ (py "summary", PStr (py "Findings: normal"));
             (py "severity_label", PStr (py "uncertain"));
             (py "severity_score", PInt 3);
             (py "raw_llm_output", PStr (py "not json at all")) ]).
Proof.
  exact (proj1 (fallback_record_on_decode_error Json.loads
                  (py "not json at all") (py "Findings: normal") eq_refl)).
Defined.

Lemma severity_fields_of_response_witness :
  exists d summary,
    normalize_response Json.loads (py "not json at all") demo_text
    = Ret (PDict d)
    /\ dict_find d (py "severity_label") = Some (PStr (py "uncertain"))
    /\ dict_find d (py "severity_score") = Some (PInt 3)
    /\ valid_label (PStr (py "uncertain")) = true
    /\ valid_score (PInt 3) = true
    /\ report_fields (PDict d) = Ret (summary, PStr (py "uncertain"), PInt 3).
Proof.
  exact (proj1 (severity_fields_of_response Json.loads
                  (py "not json at all") demo_text) eq_refl).
Defined.

(** The record returned for the garbage of the specification's example has
    no field named "raw_output": the raw content is under "raw_llm_output". *)
Lemma fallback_field_is_raw_llm_output :
  let result :=
    normalize_response Json.loads (py "not json at all") (py "Findings: normal") in
  result
  <> Ret (spec_fallback_record (py "Findings: normal") (py "not json at all"))
  /\ exists d,
       result = Ret (PDict d)
       /\ dict_find d (py "raw_output") = None
       /\ dict_find d (py "raw_llm_output") = Some (PStr (py "not json at all")).
Proof.
  split.
  - vm_compute. discriminate.
  - eexists. split; [vm_compute; reflexivity|]. split; reflexivity.
Qed.

(** A response that is a JSON object with a label and a score outside their
    domains is returned, and put in the row, as it is. *)
Lemma parsed_severity_is_not_validated :
  let output_text :=
    pyq "{'summary': 'x', 'severity_label': 'catastrophic', 'severity_score': 99}" in
  exists d,
    normalize_response Json.loads output_text (py "Findings: normal")
    = Ret (PDict d)
    /\ report_fields (PDict d)
       = Ret (py "x", PStr (py "catastrophic"), PInt 99)
    /\ valid_label (PStr (py "catastrophic")) = false
    /\ valid_score (PInt 99) = false.
Proof.
  eexists. split; [vm_compute; reflexivity|]. repeat split; reflexivity.
Qed.

(** A fenced response is freed of its fence and returned as parsed, with no
    field added. *)
Example fenced_response_example :
  normalize_response Json.loads
    (py "```json" ++ [LF]
     ++ pyq "{'summary': 'ok', 'severity_label': 'mild', 'severity_score': 2}"
     ++ [LF] ++ py "```")
    (py "Findings: normal")
  = Ret (PDict [ (py "summary", PStr (py "ok"));
                 (py "severity_label", PStr (py "mild"));
                 (py "severity_score", PInt 2) ]).
Proof. vm_compute. reflexivity. Qed.

(** ** [MRIApp.run_aggregation] *)

Lemma csv_row_of_report_row (row : dict) :
  is_report_row row -> csv_row row = Ret (row_cells row).
Proof. intros (name & patient & summary & label & score & ->). reflexivity. Qed.

Lemma csv_body_of_report_rows (rows : list dict) :
  Forall is_report_row rows -> csv_body rows = (map row_cells rows, Ret tt).
Proof.
  induction 1 as [|row rows Hrow _ IH]; [reflexivity|].
  cbn [csv_body map]. now rewrite (csv_row_of_report_row _ Hrow), IH.
Qed.

Lemma report_row_keys (row : dict) :
  is_report_row row ->
  dict_keys row
  = [ py "file"; py "patient_name"; py "summary"; py "severity_label";
      py "severity_score" ].
Proof. intros (name & patient & summary & label & score & ->). reflexivity. Qed.

Section RunProperties.

Context {U : Unicode}.
Variable json_loads : str -> result pyval.
Variable a : MRIApp.

(** A turn of the loop appends at most one row, built by [report_row], and
    writes no file. *)
Lemma process_report_spec
    (c : str -> str -> result str) (pdf_path : str) (rows rows' : list dict)
    (turn : list event) :
  process_report json_loads a c pdf_path rows = Ret (rows', turn) ->
  (rows' = rows \/ exists row, is_report_row row /\ rows' = rows ++ [row])
  /\ Forall quiet turn.
Proof.
  unfold process_report.
  destruct (load_pdf_text a pdf_path) as [full_text|e].
  2:{ intros H. inversion H; subst. split; [now left|]. repeat constructor. }
  destruct (select_section _ _ full_text) as [[section_text source_label] note].
  destruct (summarize_section_structured json_loads c section_text source_label)
    as [structured|e].
  2:{ intros H. inversion H; subst. split; [now left|]. repeat constructor. }
  destruct (report_fields structured) as [[[summary label] score]|e];
    cbn [bind]; [|discriminate].
  intros H. inversion H; subst. split; [|repeat constructor].
  right. eexists. split; [|reflexivity]. unfold is_report_row. eauto 6.
Qed.

Lemma process_reports_spec (c : str -> str -> result str) (pdf_files : list str) :
  forall rows rows' turns,
    process_reports json_loads a c pdf_files rows = Ret (rows', turns) ->
    (exists added, rows' = rows ++ added /\ Forall is_report_row added)
    /\ Forall quiet turns.
Proof.
  induction pdf_files as [|pdf_path rest IH]; intros rows rows' turns;
    cbn [process_reports].
  - intros H. inversion H; subst. split; [|constructor].
    exists []. split; [now rewrite app_nil_r|constructor].
  - destruct (process_report json_loads a c pdf_path rows)
      as [[rows1 turn]|e] eqn:Hturn; cbn [bind fst snd]; [|discriminate].
    destruct (process_reports json_loads a c rest rows1)
      as [[rows2 later]|e] eqn:Hlater; cbn [bind fst snd]; [|discriminate].
    intros H. inversion H; subst.
    destruct (process_report_spec _ _ _ _ _ Hturn) as (Hrows1 & Hq1).
    destruct (IH _ _ _ Hlater) as ((added & -> & Hadded) & Hq2).
    split; [|now apply Forall_app].
    destruct Hrows1 as [->|(row & Hrow & ->)].
    + now exists added.
    + exists (row :: added). rewrite <- app_assoc. split; [reflexivity|].
      now constructor.
Qed.

(** C7, as the code names the fields. When the run has built at least one
    row and both files can be written, it writes the table whose first row
    is report_file, patient_name, severity_label, severity_score, summary
    and whose next rows hold, in the order of the run, these fields of each
    record, then the array of the same records in the same order, each an
    object with the keys file, patient_name, summary, severity_label,
    severity_score. *)
Theorem run_aggregation_exports
    (c : str -> str -> result str) (names : list str) (rows : list dict)
    (turns : list event) :
  let input_folder := strip (folder_var a) in
  let output_folder := strip (out_var a) in
  let pdf_files :=
    sort_strs
      (map (path_join a input_folder)
           (filter (fun f => endswith (py ".pdf") (u_lower f)) names)) in
  let csv_path := path_join a output_folder (py "mri_per_report_summary.csv") in
  let json_path := path_join a output_folder (py "mri_per_report_summary.json") in
  let csv := CsvRows (csv_header :: map row_cells rows) in
  let json := JsonDump (PList (map PDict rows)) in
  client a = Some c ->
  isdir a input_folder = true ->
  isdir a output_folder = true ->
  listdir a input_folder = Ret names ->
  process_reports json_loads a c pdf_files [] = Ret (rows, turns) ->
  rows <> [] ->
  write_file a csv_path csv = Ret tt ->
  write_file a json_path json = Ret tt ->
  run_aggregation json_loads a
  = Ret ([ClearLog; Log (Found (length pdf_files))] ++ turns
         ++ [ Log (SummaryTable rows); WriteFile csv_path csv;
              WriteFile json_path json; Log (Saved csv_path json_path) ])
  /\ csv_header
     = map PStr [ py "report_file"; py "patient_name"; py "severity_label";
                  py "severity_score"; py "summary" ]
  /\ length (map row_cells rows) = length rows
  /\ Forall
       (fun row =>
          dict_keys row
          = [ py "file"; py "patient_name"; py "summary";
              py "severity_label"; py "severity_score" ])
       rows.
Proof.
  intros input_folder output_folder pdf_files csv_path json_path csv json
    Hclient Hin Hout Hlist Hloop Hrows Hcsv Hjson.
  destruct (process_reports_spec _ _ _ _ _ Hloop) as ((added & Hadded & Hrep) & _).
  cbn [app] in Hadded. subst added.
  split; [|split; [reflexivity|split; [apply length_map|]]].
  - unfold run_aggregation. rewrite Hclient. fold input_folder output_folder.
    rewrite Hin, Hout, Hlist. cbn [negb bind]. fold pdf_files.
    destruct pdf_files as [|pdf_path rest] eqn:Hfiles.
    { cbn in Hloop. inversion Hloop. congruence. }
    rewrite Hloop. cbn [bind].
    destruct rows as [|row rows']; [congruence|].
    f_equal. rewrite <- !app_assoc. do 2 f_equal. cbn [app]. f_equal.
    unfold export. fold csv_path json_path.
    rewrite (csv_body_of_report_rows _ Hrep). fold csv json.
    rewrite Hcsv. cbn [bind]. now rewrite Hjson.
  - eapply Forall_impl; [|exact Hrep]. intros row. apply report_row_keys.
Qed.

(** The part of C9 that holds. When no file of the folder is a PDF, or when
    the loop over the reports comes to its end with no row, the run ends
    normally, on the "No PDFs" message or on the "No reports produced valid
    summaries." line, and nothing it did is the writing of a file. *)
Theorem no_export_without_records
    (c : str -> str -> result str) (names : list str) :
  let input_folder := strip (folder_var a) in
  let output_folder := strip (out_var a) in
  let pdf_files :=
    sort_strs
      (map (path_join a input_folder)
           (filter (fun f => endswith (py ".pdf") (u_lower f)) names)) in
  client a = Some c ->
  isdir a input_folder = true ->
  isdir a output_folder = true ->
  listdir a input_folder = Ret names ->
  (pdf_files = []
   \/ exists turns,
        process_reports json_loads a c pdf_files [] = Ret ([], turns)) ->
  exists events,
    run_aggregation json_loads a = Ret events
    /\ Forall (fun e => is_write e = false) events
    /\ (events
        = [ShowInfo (py "No PDFs")
                    (py "No PDF files found in the selected folder.")]
        \/ exists before, events = before ++ [Log NoValidSummaries]).
Proof.
  intros input_folder output_folder pdf_files Hclient Hin Hout Hlist Hzero.
  unfold run_aggregation. rewrite Hclient. fold input_folder output_folder.
  rewrite Hin, Hout, Hlist. cbn [negb bind]. fold pdf_files.
  destruct pdf_files as [|pdf_path rest] eqn:Hfiles.
  - eexists. split; [reflexivity|]. split; [repeat constructor|now left].
  - destruct Hzero as [Hnil|(turns & Hloop)]; [discriminate|].
    rewrite Hloop. cbn [bind]. eexists. split; [reflexivity|].
    destruct (process_reports_spec _ _ _ _ _ Hloop) as (_ & Hquiet).
    split.
    + apply Forall_app. split; [|repeat constructor].
      apply Forall_app. split; [repeat constructor|exact Hquiet].
    + right. eexists. reflexivity.
Qed.

End RunProperties.

(** The end-to-end example of the specification: one report, one row, one
    export. *)
Lemma run_aggregation_exports_witness :
  let a := demo_app [py "scan1.pdf"] demo_text (Ret demo_answer) in
  let row :=
    report_row (py "scan1.pdf") (py "Unknown") (py "Normal brain MRI.")
      (PStr (py "none/normal")) (PInt 0) in
  let csv_path := py "out/mri_per_report_summary.csv" in
  let json_path := py "out/mri_per_report_summary.json" in
  run_aggregation (U := ascii_tables) Json.loads a
  = Ret [ ClearLog; Log (Found 1); Log (Processing (py "scan1.pdf"));
          Log UsingFindings; Log (Done (PStr (py "none/normal")) (PInt 0));
          Log (SummaryTable [row]);
          WriteFile csv_path (CsvRows [csv_header; row_cells row]);
          WriteFile json_path (JsonDump (PList [PDict row]));
          Log (Saved csv_path json_path) ].
Proof.
  intros a row csv_path json_path.
  assert (process_reports (U := ascii_tables) Json.loads a
            (fun _ _ => Ret demo_answer) [py "reports/scan1.pdf"] []
          = Ret ([row],
                 [ Log (Processing (py "scan1.pdf")); Log UsingFindings;
                   Log (Done (PStr (py "none/normal")) (PInt 0)) ])) as Hloop.
  { vm_compute. reflexivity. }
  assert ([row] <> []) as Hrows by discriminate.
  exact (proj1 (run_aggregation_exports (U := ascii_tables) Json.loads a
                  (fun _ _ => Ret demo_answer) [py "scan1.pdf"] [row] _
                  eq_refl eq_refl eq_refl eq_refl Hloop Hrows eq_refl eq_refl)).
Defined.

(** The JSON file of the example has the key "file" where the table has the
    column "report_file": the fields of the objects are not the columns. *)
Lemma json_fields_are_not_the_columns :
  let a := demo_app [py "scan1.pdf"] demo_text (Ret demo_answer) in
  exists events csv_path json_path body d,
    run_aggregation (U := ascii_tables) Json.loads a = Ret events
    /\ In (WriteFile csv_path (CsvRows (csv_header :: body))) events
    /\ In (WriteFile json_path (JsonDump (PList [PDict d]))) events
    /\ dict_keys d
       = [ py "file"; py "patient_name"; py "summary"; py "severity_label";
           py "severity_score" ]
    /\ dict_find d (py "report_file") = None
    /\ map PStr (dict_keys d) <> csv_header.
Proof.
  do 5 eexists. split; [vm_compute; reflexivity|].
  split; [do 6 right; left; reflexivity|].
  split; [do 7 right; left; reflexivity|].
  split; [reflexivity|]. split; [reflexivity|]. vm_compute. discriminate.
Qed.

Lemma no_export_without_records_witness :
  let a := demo_app [py "notes.txt"] demo_text (Ret demo_answer) in
  exists events,
    run_aggregation (U := ascii_tables) Json.loads a = Ret events
    /\ Forall (fun e => is_write e = false) events
    /\ (events
        = [ShowInfo (py "No PDFs")
                    (py "No PDF files found in the selected folder.")]
        \/ exists before, events = before ++ [Log NoValidSummaries]).
Proof.
  intros a.
  exact (no_export_without_records (U := ascii_tables) Json.loads a
           (fun _ _ => Ret demo_answer) [py "notes.txt"]
           eq_refl eq_refl eq_refl eq_refl (or_introl eq_refl)).
Defined.

(** A run whose only report gets no answer from the classifier. *)
Example no_valid_summaries_example :
  run_aggregation (U := ascii_tables) Json.loads
    (demo_app [py "scan1.pdf"] demo_text (Raise OtherError))
  = Ret [ ClearLog; Log (Found 1); Log (Processing (py "scan1.pdf"));
          Log UsingFindings; Log LLMError; Log NoValidSummaries ].
Proof. vm_compute. reflexivity. Qed.

(** C6, where the code leaves it. The response "[]" is a JSON document and
    not an object: the function returns the list it parses to, which has
    neither a summary nor a severity, and the run, which reads the fields
    with [get] outside any [try], ends on the AttributeError. *)
Theorem non_object_response_aborts_run :
  normalize_response Json.loads (py "[]") demo_text = Ret (PList [])
  /\ report_fields (PList []) = Raise AttributeError
  /\ run_aggregation (U := ascii_tables) Json.loads
       (demo_app [py "scan1.pdf"] demo_text (Ret (py "[]")))
     = Raise AttributeError.
Proof. repeat split; vm_compute; reflexivity. Qed.

(** * Part III: further properties of the code *)

(** ** Trimming *)

Lemma lstrip_fixed (s : str) :
  match s with c :: _ => is_space c = false | [] => True end ->
  lstrip s = s.
Proof. destruct s as [|c s]; [reflexivity|]. cbn [lstrip]. now intros ->. Qed.

Lemma lstrip_twice (s : str) : lstrip (lstrip s) = lstrip s.
Proof. apply lstrip_fixed, lstrip_head. Qed.

Lemma lstrip_split (s : str) :
  exists pre, s = pre ++ lstrip s /\ forallb is_space pre = true.
Proof.
  induction s as [|c s (pre & Hs & Hpre)]; [now exists []|].
  cbn [lstrip]. destruct (is_space c) eqn:Hc.
  - exists (c :: pre). cbn [app forallb]. rewrite Hc, Hpre. split; [|reflexivity].
    now rewrite <- Hs.
  - now exists [].
Qed.

Lemma lstrip_length (s : str) : length (lstrip s) <= length s.
Proof.
  destruct (lstrip_split s) as (pre & Hs & _). rewrite Hs at 2.
  rewrite length_app. lia.
Qed.

Lemma rstrip_twice (s : str) : rstrip (rstrip s) = rstrip s.
Proof. unfold rstrip. now rewrite rev_involutive, lstrip_twice. Qed.

Lemma rstrip_split (s : str) :
  exists post, s = rstrip s ++ post /\ forallb is_space post = true.
Proof.
  destruct (lstrip_split (rev s)) as (pre & Hs & Hpre).
  exists (rev pre). split.
  - unfold rstrip. rewrite <- rev_app_distr, <- Hs. now rewrite rev_involutive.
  - rewrite forallb_forall in *. intros c Hc. apply Hpre. now apply in_rev.
Qed.

(** What [strip] returns is the text without a run of whitespace at each
    end. *)
Lemma strip_split (s : str) :
  exists pre post,
    s = pre ++ strip s ++ post
    /\ forallb is_space pre = true /\ forallb is_space post = true.
Proof.
  destruct (rstrip_split s) as (post & Hs & Hpost).
  destruct (lstrip_split (rstrip s)) as (pre & Hr & Hpre).
  exists pre, post. split; [|now split].
  unfold strip. rewrite app_assoc, <- Hr. exact Hs.
Qed.

Lemma strip_length (s : str) : length (strip s) <= length s.
Proof.
  destruct (strip_split s) as (pre & post & Hs & _). rewrite Hs at 2.
  rewrite !length_app. lia.
Qed.

Lemma strip_in (s : str) (c : char) : In c (strip s) -> In c s.
Proof.
  destruct (strip_split s) as (pre & post & Hs & _). intros H. rewrite Hs.
  apply in_or_app. right. apply in_or_app. now left.
Qed.

Lemma rstrip_of_suffix (pre y : str) :
  rstrip (pre ++ y) = pre ++ y -> rstrip y = y.
Proof.
  unfold rstrip. intros H. apply (f_equal (@rev char)) in H.
  rewrite rev_involutive, rev_app_distr in H.
  rewrite <- (rev_involutive y) at 2. f_equal.
  destruct (rev y) as [|c r] eqn:Hy; [reflexivity|].
  cbn [app lstrip] in H. cbn [lstrip].
  destruct (is_space c); [|reflexivity].
  exfalso. pose proof (lstrip_length (r ++ rev pre)) as Hlen.
  rewrite H in Hlen. cbn [Datatypes.length] in Hlen. lia.
Qed.

(** Trimming a trimmed text changes nothing. *)
Lemma strip_twice (s : str) : strip (strip s) = strip s.
Proof.
  unfold strip at 2 3. set (x := rstrip s).
  assert (rstrip x = x) as Hx by apply rstrip_twice.
  destruct (lstrip_split x) as (pre & Hsplit & _).
  assert (rstrip (lstrip x) = lstrip x) as Hr.
  { apply (rstrip_of_suffix pre). now rewrite <- Hsplit. }
  unfold strip. now rewrite Hr, lstrip_twice.
Qed.

(** ** More on [normalize_text] *)

Lemma replace_crlf_length (s : str) :
  forall skip, length (replace_go [CR; LF] [LF] s skip) <= length s.
Proof.
  induction s as [|c s IH]; intros skip; [reflexivity|].
  cbn [replace_go Datatypes.length]. destruct skip as [|k].
  - destruct (startswith [CR; LF] (c :: s)).
    + cbn [app Datatypes.length Nat.sub]. specialize (IH 1). lia.
    + cbn [Datatypes.length]. specialize (IH 0). lia.
  - specialize (IH k). lia.
Qed.

Lemma replace_crlf_nonempty (c : char) (s : str) :
  replace_go [CR; LF] [LF] (c :: s) 0 <> [].
Proof.
  cbn [replace_go]. destruct (startswith [CR; LF] (c :: s)); discriminate.
Qed.

Lemma normalize_text_length (t : str) :
  length (normalize_text t) <= length t.
Proof.
  unfold normalize_text, str_replace. rewrite !replace_go_single, !length_map.
  apply replace_crlf_length.
Qed.

Lemma normalize_text_empty (t : str) : normalize_text t = [] <-> t = [].
Proof.
  split; [|intros ->; reflexivity].
  unfold normalize_text, str_replace. rewrite !replace_go_single.
  intros H. apply map_eq_nil, map_eq_nil in H.
  destruct t as [|c t]; [reflexivity|].
  now apply replace_crlf_nonempty in H.
Qed.

(** X1. Whatever the text, what [normalize_text] returns holds no carriage
    return and no non-breaking space, is left as it is by a second pass, is
    not longer than the text, and is empty only when the text is. *)
Theorem normalize_text_clean (t : str) :
  ~ In CR (normalize_text t)
  /\ ~ In NBSP (normalize_text t)
  /\ normalize_text (normalize_text t) = normalize_text t
  /\ length (normalize_text t) <= length t
  /\ (normalize_text t = [] <-> t = []).
Proof.
  split; [apply normalize_text_no_cr|].
  split; [apply normalize_text_no_nbsp|].
  split; [apply normalize_text_twice|].
  split; [apply normalize_text_length|apply normalize_text_empty].
Qed.

(** ** More on the matching engine *)

Lemma backoff_some (k : nat -> matched) (base extra : nat) (m : nat * capture) :
  backoff k base extra = Some m ->
  exists e, e <= extra /\ k (base + e) = Some m.
Proof.
  induction extra as [|extra IH]; cbn [backoff].
  - destruct (k (base + 0)) eqn:Hk; [|discriminate].
    intros H. inversion H; subst. exists 0. now split.
  - destruct (k (base + S extra)) eqn:Hk.
    + intros H. inversion H; subst. exists (S extra). now split.
    + intros H. destruct (IH H) as (e & He & Hke). exists e. split; [lia|exact Hke].
Qed.

Lemma firstn_span (p : char -> bool) (s : str) (n : nat) :
  n <= span p s -> forallb p (firstn n s) = true.
Proof.
  revert n. induction s as [|c s IH]; intros [|n] Hn; try reflexivity.
  cbn [span] in Hn. cbn [firstn forallb]. destruct (p c); [|lia].
  cbn [andb]. apply IH. lia.
Qed.

Lemma ci_prefix_app {U : Unicode} (w s t : str) :
  ci_prefix w s = true -> ci_prefix w (s ++ t) = true.
Proof.
  revert s. induction w as [|p w IH]; intros [|c s]; cbn [ci_prefix app];
    try reflexivity; try discriminate.
  intros H. apply andb_true_iff in H as [Hc Hw]. rewrite Hc. now apply IH.
Qed.

Lemma skipn_middle (pre m post : str) (p : nat) :
  skipn (length pre + p) (pre ++ m ++ post)
  = skipn p m ++ skipn (p - length m) post.
Proof.
  rewrite skipn_app.
  replace (length pre + p - length pre) with p by lia.
  rewrite (skipn_all2 pre) by lia. cbn [app]. apply skipn_app.
Qed.

Lemma nth_error_middle (pre m post : str) (p : nat) (c : char) :
  nth_error m p = Some c ->
  nth_error (pre ++ m ++ post) (length pre + p) = Some c.
Proof.
  intros H. rewrite nth_error_app2 by lia.
  replace (length pre + p - length pre) with p by lia.
  rewrite nth_error_app1; [exact H|].
  apply nth_error_Some. congruence.
Qed.

(** ** More on [extract_patient_name] *)

Section MoreNameProperties.

Context {U : Unicode}.

Lemma separator_free_middle (pre m post : str) :
  separator_free (pre ++ m ++ post) -> separator_free m.
Proof.
  intros [Hdob Hsp]. split.
  - intros p. destruct (ci_prefix (py "dob") (skipn p m)) eqn:H; [|reflexivity].
    specialize (Hdob (length pre + p)). rewrite skipn_middle in Hdob.
    now rewrite (ci_prefix_app _ _ _ H) in Hdob.
  - intros p c1 c2 H1 H2. apply (Hsp (length pre + p)).
    + now apply nth_error_middle.
    + rewrite <- Nat.add_succ_r. now apply nth_error_middle.
Qed.

Lemma separator_free_strip (s : str) :
  separator_free s -> separator_free (strip s).
Proof.
  destruct (strip_split s) as (pre & post & Hs & _). intros H.
  rewrite Hs in H. exact (separator_free_middle _ _ _ H).
Qed.

(** Two whitespace characters side by side are a match of the separator
    pattern. *)
Lemma separators_match_spaces (line : str) (p : nat) (c1 c2 : char) :
  nth_error line p = Some c1 -> nth_error line (S p) = Some c2 ->
  is_space c1 = true -> is_space c2 = true ->
  match_at separators line p <> None.
Proof.
  intros H1 H2 Hc1 Hc2. unfold match_at, separators. cbn [run].
  rewrite (nth_error_skipn_cons _ _ _ H1), (nth_error_skipn_cons _ _ _ H2).
  cbn [span]. rewrite Hc1, Hc2. cbn [Nat.ltb Nat.leb].
  erewrite backoff_first; [discriminate|reflexivity].
Qed.

(** The text [re.split] keeps has nothing the separator pattern matches. *)
Lemma split_head_separator_free (line : str) :
  separator_free (re_split_head separators line).
Proof.
  unfold re_split_head.
  destruct (re_search separators line) as [[[i j] g]|] eqn:Hs.
  - destruct (re_search_some _ _ _ _ _ Hs) as (Hi & _ & Hbefore).
    assert (forall p, p < length (firstn i line) ->
                      match_at separators line p = None) as Hnone.
    { intros p Hp. apply Hbefore. rewrite length_firstn in Hp. lia. }
    split.
    + intros p. destruct (ci_prefix _ _) eqn:H; [|reflexivity]. exfalso.
      assert (p < length (firstn i line)) as Hp.
      { destruct (skipn p (firstn i line)) eqn:Hsk; [discriminate H|].
        exact (skipn_cons_lt _ _ _ _ Hsk). }
      apply (separators_match_dob line p); [|now apply Hnone].
      rewrite <- (firstn_skipn i line) at 1. rewrite skipn_app.
      now apply ci_prefix_app.
    + intros p c1 c2 H1 H2.
      destruct (is_space c1 && is_space c2) eqn:Hsp; [|reflexivity]. exfalso.
      apply andb_true_iff in Hsp as [Hc1 Hc2].
      assert (S p < length (firstn i line)) as Hp
        by (apply nth_error_Some; congruence).
      apply (separators_match_spaces line p c1 c2); try assumption.
      * rewrite <- (firstn_skipn i line). rewrite nth_error_app1; [exact H1|lia].
      * rewrite <- (firstn_skipn i line). rewrite nth_error_app1; [exact H2|lia].
      * apply Hnone. lia.
  - pose proof (re_search_none _ _ Hs) as Hno. split.
    + intros p. destruct (ci_prefix _ _) eqn:H; [|reflexivity]. exfalso.
      assert (p < length line) as Hp.
      { destruct (skipn p line) eqn:Hsk; [discriminate H|].
        exact (skipn_cons_lt _ _ _ _ Hsk). }
      apply (separators_match_dob line p H). apply Hno. lia.
    + intros p c1 c2 H1 H2.
      destruct (is_space c1 && is_space c2) eqn:Hsp; [|reflexivity]. exfalso.
      apply andb_true_iff in Hsp as [Hc1 Hc2].
      assert (S p < length line) as Hp by (apply nth_error_Some; congruence).
      apply (separators_match_spaces line p c1 c2); try assumption.
      apply Hno. lia.
Qed.

Lemma name_candidate_separator_free (captured : str) :
  separator_free (name_candidate captured).
Proof.
  unfold name_candidate. apply separator_free_strip, split_head_separator_free.
Qed.

Lemma name_candidate_in (captured : str) (c : char) :
  In c (name_candidate captured) -> In c captured.
Proof.
  unfold name_candidate, re_split_head. intros H. apply strip_in in H.
  apply strip_in.
  destruct (re_search separators (strip captured)) as [[[i j] g]|]; [|exact H].
  rewrite <- (firstn_skipn i (strip captured)). apply in_or_app. now left.
Qed.

Lemma name_candidate_trimmed (captured : str) :
  strip (name_candidate captured) = name_candidate captured.
Proof. unfold name_candidate. apply strip_twice. Qed.

(** What a label pattern captures is a run of characters other than the
    line feed. *)
Lemma label_pattern_capture (label s : str) (i j : nat) (g : capture) :
  match_at (label_pattern label) s i = Some (j, g) ->
  forallb not_newline (group1 s g) = true.
Proof.
  unfold match_at, label_pattern. cbn [chain fold_right run].
  rewrite run_ilits. destruct (ci_prefix label (skipn i s)); [|discriminate].
  destruct (nth_error s (i + length label)) as [c|]; [|discriminate].
  destruct (colon_or_dash c); [|discriminate].
  match goal with |- (if ?b then _ else _) = _ -> _ => destruct b end;
    [discriminate|].
  intros H. apply backoff_some in H as (e & _ & H). cbn beta in H.
  remember (S (i + length label) + 0 + e) as a eqn:Ha. clear Ha.
  match type of H with (if ?b then _ else _) = _ => destruct b eqn:Hn end;
    [discriminate|].
  apply Nat.ltb_ge in Hn.
  apply backoff_some in H as (e' & He' & H). inversion H; subst.
  unfold group1, slice. apply firstn_span. lia.
Qed.

Lemma first_name_from (pats : list regex) (norm v : str) :
  first_name pats norm = Some v ->
  exists pat, In pat pats /\ name_from pat norm = Some v.
Proof.
  induction pats as [|pat pats IH]; cbn [first_name]; [discriminate|].
  destruct (name_from pat norm) as [line|] eqn:Hn.
  - intros H. inversion H; subst. exists pat. split; [now left|exact Hn].
  - intros H. destruct (IH H) as (pat' & Hin & Hp). exists pat'.
    split; [now right|exact Hp].
Qed.

Lemma patterns_are_labels (pat : regex) :
  In pat patterns -> exists label, pat = label_pattern label.
Proof.
  intros [<-|[<-|[<-|[]]]]; eexists; reflexivity.
Qed.

(** The three ways a name comes out of [name_from]. *)
Lemma name_from_shape (label norm v : str) :
  name_from (label_pattern label) norm = Some v ->
  0 < length v <= 80
  /\ strip v = v
  /\ separator_free v
  /\ forall c, In c v -> c <> LF.
Proof.
  unfold name_from.
  destruct (re_search (label_pattern label) norm) as [[[i j] g]|] eqn:Hs;
    [|discriminate].
  destruct (acceptable (name_candidate (group1 norm g))) eqn:Hacc;
    [|discriminate].
  intros H. inversion H; subst v. split.
  - unfold acceptable in Hacc. apply andb_true_iff in Hacc as [H1 H2].
    apply Nat.ltb_lt in H1. apply Nat.leb_le in H2. lia.
  - split; [apply name_candidate_trimmed|].
    split; [apply name_candidate_separator_free|].
    intros c Hc. apply name_candidate_in in Hc.
    destruct (re_search_some _ _ _ _ _ Hs) as (_ & Hm & _).
    pose proof (label_pattern_capture _ _ _ _ _ Hm) as Hall.
    rewrite forallb_forall in Hall. specialize (Hall c Hc).
    unfold not_newline in Hall. intros ->. discriminate Hall.
Qed.

Lemma extract_patient_name_cases (text : str) :
  extract_patient_name text = py "Unknown"
  \/ exists label,
       name_from (label_pattern label) (normalize_text text)
       = Some (extract_patient_name text).
Proof.
  unfold extract_patient_name.
  destruct (first_name patterns (normalize_text text)) as [v|] eqn:Hf;
    [|now left].
  right. destruct (first_name_from _ _ _ Hf) as (pat & Hin & Hn).
  destruct (patterns_are_labels _ Hin) as (label & ->). now exists label.
Qed.

Lemma patient_name_shape (text : str) :
  0 < length (extract_patient_name text) <= 80
  /\ strip (extract_patient_name text) = extract_patient_name text.
Proof.
  destruct (extract_patient_name_cases text) as [->|(label & Hn)].
  - split; [cbn; lia|reflexivity].
  - destruct (name_from_shape _ _ _ Hn) as (Hlen & Hstrip & _).
    now split.
Qed.

(** X2. The name returned is never empty, never longer than 80 characters
    and never has whitespace at either end, so that the caller's fallback
    to "Unknown" on an empty name is never taken. *)
Theorem extract_patient_name_bounds (text : str) :
  0 < length (extract_patient_name text) <= 80
  /\ strip (extract_patient_name text) = extract_patient_name text
  /\ (if nonempty (extract_patient_name text)
      then extract_patient_name text else py "Unknown")
     = extract_patient_name text.
Proof.
  destruct (patient_name_shape text) as [Hlen Hstrip].
  split; [exact Hlen|]. split; [exact Hstrip|].
  destruct (extract_patient_name text); [cbn in Hlen; lia|reflexivity].
Qed.

(** X3. A name other than "Unknown" is a piece of one line, with no line
    feed in it, in which the letters d, o, b stand nowhere, in any case, and
    no two whitespace characters stand side by side. *)
Theorem extracted_name_is_clean (text : str) :
  extract_patient_name text = py "Unknown"
  \/ ((forall c, In c (extract_patient_name text) -> c <> LF)
      /\ (forall p,
            ci_prefix (py "dob") (skipn p (extract_patient_name text)) = false)
      /\ (forall p c1 c2,
            nth_error (extract_patient_name text) p = Some c1 ->
            nth_error (extract_patient_name text) (S p) = Some c2 ->
            is_space c1 && is_space c2 = false)).
Proof.
  destruct (extract_patient_name_cases text) as [H|(label & Hn)]; [now left|].
  right. destruct (name_from_shape _ _ _ Hn) as (_ & _ & [Hdob Hsp] & Hlf).
  split; [exact Hlf|]. split; [exact Hdob|exact Hsp].
Qed.

End MoreNameProperties.

(** ** More on [extract_section_by_heading] *)

Section MoreSectionProperties.

Context {U : Unicode}.

Lemma nonempty_normalize_text (text : str) :
  nonempty (normalize_text text) = nonempty text.
Proof.
  destruct text as [|c text]; [reflexivity|].
  destruct (normalize_text (c :: text)) eqn:H; [|reflexivity].
  apply (proj1 (normalize_text_empty _)) in H. discriminate.
Qed.

(** X4. Normalising a text before it is handed to an extractor changes
    nothing: the name and the sections found are those of the text itself. *)
Theorem extraction_ignores_normalization
    (text heading : str) (stop_headings : list str) :
  extract_patient_name (normalize_text text) = extract_patient_name text
  /\ extract_section_by_heading (normalize_text text) heading stop_headings
     = extract_section_by_heading text heading stop_headings.
Proof.
  split.
  - unfold extract_patient_name. now rewrite normalize_text_twice.
  - unfold extract_section_by_heading.
    now rewrite normalize_text_twice, nonempty_normalize_text.
Qed.

Lemma slice_split (s : str) (a b : nat) :
  exists pre post, s = pre ++ slice s a b ++ post.
Proof.
  exists (firstn a s), (skipn (b - a) (skipn a s)). unfold slice.
  now rewrite firstn_skipn, firstn_skipn.
Qed.

(** X5. A section that is found is not empty, has no whitespace at either
    end, and is one piece of the normalised text: it is not longer than the
    text and holds no carriage return and no non-breaking space. *)
Theorem extracted_section_shape
    (text heading : str) (stop_headings : list str) (body : str) :
  extract_section_by_heading text heading stop_headings = Some body ->
  body <> []
  /\ strip body = body
  /\ (exists before after, normalize_text text = before ++ body ++ after)
  /\ length body <= length text
  /\ ~ In CR body /\ ~ In NBSP body.
Proof.
  intros H. pose proof (extract_section_nonempty _ _ _ _ H) as Hne.
  assert (exists start e,
            body = strip (slice (normalize_text text) start e)) as (start & e & ->).
  { destruct (extract_section_cases text heading stop_headings)
      as [[_ Hres]|(i & start & g & e & _ & _ & Hres)];
      rewrite Hres in H; [discriminate|].
    cbn zeta in H. exists start, e.
    destruct (nonempty (strip (slice (normalize_text text) start e)));
      [now inversion H|discriminate]. }
  set (piece := slice (normalize_text text) start e) in *.
  assert (exists before after,
            normalize_text text = before ++ strip piece ++ after)
    as (before & after & Hin).
  { destruct (slice_split (normalize_text text) start e) as (pre & post & Hs).
    destruct (strip_split piece) as (pre' & post' & Hp & _).
    exists (pre ++ pre'), (post' ++ post). rewrite Hs at 1. fold piece.
    rewrite Hp at 1. now rewrite <- !app_assoc. }
  split; [exact Hne|]. split; [apply strip_twice|].
  split; [now exists before, after|].
  assert (forall c, In c (strip piece) -> In c (normalize_text text)) as Hsub.
  { intros c Hc. rewrite Hin. apply in_or_app. right. apply in_or_app. now left. }
  split.
  - pose proof (normalize_text_length text) as Hlen. rewrite Hin in Hlen.
    rewrite !length_app in Hlen. lia.
  - split; intros Hc; apply Hsub in Hc;
      [now apply normalize_text_no_cr in Hc|now apply normalize_text_no_nbsp in Hc].
Qed.

Lemma body_end_same_stops
    (low : str) (start n : nat) (stops stops' : list str) (e : nat) :
  (forall kw, In kw stops <-> In kw stops') ->
  body_end low start n stops e -> body_end low start n stops' e.
Proof.
  intros Hsame (Hn & Hmin & Hwit). split; [exact Hn|]. split.
  - intros kw p Hin. apply Hmin. now apply Hsame.
  - destruct Hwit as [->|(kw & p & Hin & Hrest)]; [now left|].
    right. exists kw, p. split; [now apply Hsame|exact Hrest].
Qed.

(** X6. The section found depends on which stop headings are given, not on
    their order nor on how often each is given. *)
Theorem stop_headings_order_irrelevant
    (text heading : str) (stops stops' : list str) :
  (forall kw, In kw stops <-> In kw stops') ->
  extract_section_by_heading text heading stops
  = extract_section_by_heading text heading stops'.
Proof.
  intros Hsame.
  destruct (extract_section_cases text heading stops)
    as [[Hno Hres]|(i & start & g & e & Hl & He & Hres)];
    destruct (extract_section_cases text heading stops')
      as [[Hno' Hres']|(i' & start' & g' & e' & Hl' & He' & Hres')];
    rewrite Hres, Hres'; try reflexivity.
  - destruct Hl' as (Hi & Hm & _). rewrite (Hno i' Hi) in Hm. discriminate.
  - destruct Hl as (Hi & Hm & _). rewrite (Hno' i Hi) in Hm. discriminate.
  - destruct (leftmost_unique _ _ _ _ _ _ _ _ Hl Hl') as (_ & <- & _).
    apply (body_end_same_stops _ _ _ _ _ _ Hsame) in He.
    now rewrite (body_end_unique _ _ _ _ _ _ He He').
Qed.

(** X7. With no stop heading the section runs to the end of the text: it is
    everything that follows the heading, trimmed. *)
Theorem section_without_stop_headings
    (text heading : str) (i start : nat) (g : capture) :
  leftmost (heading_pattern heading) (u_lower (normalize_text text)) i start g ->
  extract_section_by_heading text heading []
  = let body := strip (skipn start (normalize_text text)) in
    if nonempty body then Some body else None.
Proof.
  intros Hl.
  destruct (extract_section_cases text heading [])
    as [[Hno _]|(i' & start' & g' & e & Hl' & He & Hres)].
  - destruct Hl as (Hi & Hm & _). rewrite (Hno i Hi) in Hm. discriminate.
  - destruct (leftmost_unique _ _ _ _ _ _ _ _ Hl Hl') as (_ & <- & _).
    destruct He as (_ & _ & [->|(kw & p & [] & _)]).
    rewrite Hres. unfold slice.
    rewrite firstn_all2; [reflexivity|]. rewrite length_skipn. lia.
Qed.

End MoreSectionProperties.

Lemma extracted_section_shape_witness :
  let body := py "no acute abnormality." in
  body <> []
  /\ strip body = body
  /\ (exists before after, normalize_text demo_text = before ++ body ++ after)
  /\ length body <= length demo_text
  /\ ~ In CR body /\ ~ In NBSP body.
Proof.
  exact (extracted_section_shape (U := ascii_tables) demo_text (py "findings")
           [py "impression"; py "conclusion"; py "discussion"; py "report"]
           (py "no acute abnormality.") eq_refl).
Defined.

Lemma stop_headings_order_irrelevant_witness :
  extract_section_by_heading (U := ascii_tables) demo_text (py "findings")
    [py "impression"; py "conclusion"]
  = extract_section_by_heading (U := ascii_tables) demo_text (py "findings")
      [py "conclusion"; py "impression"; py "conclusion"].
Proof.
  apply stop_headings_order_irrelevant.
  intros kw. cbn [In]. tauto.
Defined.

Lemma section_without_stop_headings_witness :
  extract_section_by_heading (U := ascii_tables) demo_text (py "findings") []
  = Some (py "no acute abnormality." ++ [LF] ++ py "Impression: normal study.").
Proof.
  apply (section_without_stop_headings (U := ascii_tables) demo_text
           (py "findings") 0 9 None).
  split; [vm_compute; lia|]. split; [vm_compute; reflexivity|].
  intros q Hq. lia.
Defined.

(** ** More on [summarize_section_structured] *)

Lemma lstrip_spaces (pre s : str) :
  forallb is_space pre = true -> lstrip (pre ++ s) = lstrip s.
Proof.
  induction pre as [|c pre IH]; [reflexivity|].
  cbn [forallb app lstrip]. intros H. apply andb_prop in H as [-> H]. auto.
Qed.

Lemma lstrip_app (x y : str) :
  lstrip (x ++ y)
  = match lstrip x with [] => lstrip y | _ :: _ => lstrip x ++ y end.
Proof.
  induction x as [|c x IH]; [reflexivity|].
  cbn [app lstrip]. destruct (is_space c); [exact IH|reflexivity].
Qed.

Lemma forallb_rev (f : char -> bool) (s : str) :
  forallb f s = true -> forallb f (rev s) = true.
Proof.
  rewrite !forallb_forall. intros H c Hc. apply H. now apply in_rev.
Qed.

Lemma lstrip_all_spaces (s : str) :
  forallb is_space s = true -> lstrip s = [].
Proof.
  intros H. rewrite <- (app_nil_r s). now rewrite lstrip_spaces.
Qed.

(** Whitespace around a text is of no account to [strip]. *)
Lemma strip_padding (pre s post : str) :
  forallb is_space pre = true -> forallb is_space post = true ->
  strip (pre ++ s ++ post) = strip s.
Proof.
  intros Hpre Hpost. unfold strip, rstrip.
  rewrite !rev_app_distr, <- app_assoc.
  rewrite (lstrip_spaces (rev post)) by now apply forallb_rev.
  rewrite lstrip_app.
  destruct (lstrip (rev s)) as [|c l] eqn:Hl.
  - rewrite (lstrip_all_spaces (rev pre)) by now apply forallb_rev.
    reflexivity.
  - rewrite rev_app_distr, rev_involutive. now apply lstrip_spaces.
Qed.

Lemma stripped_rstrip (s : str) : strip s = s -> rstrip s = s.
Proof.
  intros Hs. destruct (rstrip_split s) as (post & Hpost & _).
  destruct (lstrip_split (rstrip s)) as (pre & Hpre & _).
  fold (strip s) in Hpre. rewrite Hs in Hpre.
  assert (length pre = 0) as Hlen.
  { apply (f_equal (@Datatypes.length char)) in Hpost, Hpre.
    rewrite length_app in Hpost, Hpre. lia. }
  destruct pre; [exact Hpre|discriminate].
Qed.

(** A trimmed, non-empty text stays as it is at the end of a longer one. *)
Lemma rstrip_app_trimmed (pre body : str) :
  strip body = body -> body <> [] -> rstrip (pre ++ body) = pre ++ body.
Proof.
  intros Hs Hne. apply stripped_rstrip in Hs. unfold rstrip in *.
  rewrite rev_app_distr, lstrip_app.
  assert (lstrip (rev body) = rev body) as Hl.
  { rewrite <- Hs at 2. now rewrite rev_involutive. }
  rewrite Hl. destruct (rev body) as [|c l] eqn:Hrev.
  - apply (f_equal (@rev char)) in Hrev. rewrite rev_involutive in Hrev.
    now destruct Hne.
  - rewrite <- Hrev, rev_app_distr, !rev_involutive. reflexivity.
Qed.

Lemma strip_fences_trimmed (raw : str) :
  strip raw = raw -> strip (strip_fences raw) = strip_fences raw.
Proof.
  intros Hraw. unfold strip_fences.
  destruct (startswith (py "```") raw); [|exact Hraw].
  cbn zeta. destruct (endswith _ _); apply strip_twice.
Qed.

Section MoreClassifierProperties.

Variable json_loads : str -> result pyval.

(** X8. Whitespace around the classifier's response is of no account: what
    is handed to the parser has none at either end, and a response gives the
    same result with and without whitespace before and after it. *)
Theorem response_whitespace_ignored
    (before output_text after section_text : str) :
  forallb is_space before = true -> forallb is_space after = true ->
  strip (response_content output_text) = response_content output_text
  /\ response_content (before ++ output_text ++ after)
     = response_content output_text
  /\ normalize_response json_loads (before ++ output_text ++ after) section_text
     = normalize_response json_loads output_text section_text.
Proof.
  intros Hb Ha. split; [|split].
  - unfold response_content. apply strip_fences_trimmed, strip_twice.
  - unfold response_content. now rewrite strip_padding.
  - unfold normalize_response. now rewrite strip_padding.
Qed.

(** X9. A code fence that is opened and never closed is tolerated: the
    opening line is removed and the rest is the content. *)
Theorem unclosed_fence_tolerated (tag body : str) :
  forallb ascii_isalpha tag = true ->
  strip body = body -> body <> [] ->
  endswith (py "```") body = false ->
  response_content (py "```" ++ tag ++ [LF] ++ body) = body.
Proof.
  intros Htag Hs Hne Hend.
  destruct (stripped_head body Hs Hne) as (c & rest & Hbody & Hc).
  unfold response_content.
  assert (strip (py "```" ++ tag ++ [LF] ++ body)
          = py "```" ++ tag ++ [LF] ++ body) as Hraw.
  { unfold strip.
    replace (py "```" ++ tag ++ [LF] ++ body)
      with ((py "```" ++ tag ++ [LF]) ++ body) by now rewrite <- !app_assoc.
    now rewrite rstrip_app_trimmed. }
  rewrite Hraw. unfold strip_fences.
  change (startswith (py "```") (py "```" ++ tag ++ [LF] ++ body)) with true.
  cbn iota. change ([LF] ++ body) with (LF :: body).
  rewrite (sub_del_fence_open _ _ Htag).
  assert (strip (LF :: body) = body) as Hinner.
  { rewrite <- (app_nil_r body) at 1.
    change (LF :: body ++ []) with ([LF] ++ body ++ []).
    rewrite strip_padding by reflexivity. exact Hs. }
  cbn zeta. rewrite Hinner, Hend. reflexivity.
Qed.

End MoreClassifierProperties.

Lemma response_whitespace_ignored_witness :
  response_content ([SP; LF] ++ demo_answer ++ [LF]) = response_content demo_answer
  /\ normalize_response Json.loads ([SP; LF] ++ demo_answer ++ [LF]) demo_text
     = normalize_response Json.loads demo_answer demo_text.
Proof.
  exact (proj2 (response_whitespace_ignored Json.loads [SP; LF] demo_answer [LF]
                  demo_text eq_refl eq_refl)).
Defined.

Lemma unclosed_fence_tolerated_witness :
  response_content (py "```" ++ py "json" ++ [LF] ++ demo_answer) = demo_answer.
Proof.
  apply unclosed_fence_tolerated; [reflexivity|reflexivity| |reflexivity].
  vm_compute. discriminate.
Defined.

(** ** More on [MRIApp.run_aggregation] *)

Lemma report_fields_fallback (section_text raw : str) :
  report_fields (fallback_record section_text raw)
  = Ret (strip (firstn 300 section_text
                ++ (if 300 <? length section_text then py "..." else [])),
         PStr (py "uncertain"), PInt 3).
Proof. reflexivity. Qed.

Lemma report_fields_trimmed
    (structured : pyval) (summary : str) (label score : pyval) :
  report_fields structured = Ret (summary, label, score) ->
  strip summary = summary.
Proof.
  unfold report_fields. destruct structured as [| | | | | |d]; try discriminate.
  cbn [py_get bind].
  destruct (dict_get d (py "summary") (PStr [])); try discriminate.
  cbn [py_strip bind]. intros H. inversion H. apply strip_twice.
Qed.

Lemma report_fields_readable (v : pyval) :
  readable_record v -> exists fields, report_fields v = Ret fields.
Proof.
  intros (d & s & -> & Hs). unfold report_fields. cbn [py_get bind].
  rewrite Hs. cbn [py_strip bind]. eexists. reflexivity.
Qed.

Lemma fallback_summary_length (section_text : str) :
  length (firstn 300 section_text
          ++ (if 300 <? length section_text then py "..." else [])) <= 303.
Proof.
  rewrite length_app, length_firstn.
  destruct (300 <? length section_text);
    [change (Datatypes.length (py "...")) with 3|cbn [Datatypes.length]]; lia.
Qed.

Lemma filter_quiet (events : list event) :
  Forall quiet events -> filter is_write events = [].
Proof.
  induction 1 as [|e events He _ IH]; [reflexivity|].
  cbn [filter]. unfold quiet in He. now rewrite He.
Qed.

Lemma str_leb_total (x y : str) : str_le x y \/ str_le y x.
Proof.
  unfold str_le. revert y.
  induction x as [|c x IH]; intros [|d y]; cbn [str_leb]; auto.
  destruct (N.lt_trichotomy c d) as [H|[->|H]].
  - left. apply N.ltb_lt in H. now rewrite H.
  - rewrite N.ltb_irrefl, N.eqb_refl. cbn [orb andb]. apply IH.
  - right. apply N.ltb_lt in H. now rewrite H.
Qed.

Lemma insert_sorted_head (x y : str) (l : list str) :
  str_le y x -> HdRel str_le y l -> HdRel str_le y (insert_sorted x l).
Proof.
  intros Hyx Hl. destruct l as [|z l]; cbn [insert_sorted].
  - now constructor.
  - destruct (str_leb x z); constructor; [exact Hyx|].
    now inversion Hl.
Qed.

Lemma insert_sorted_sorted (x : str) (l : list str) :
  Sorted str_le l -> Sorted str_le (insert_sorted x l).
Proof.
  induction 1 as [|y l Hl IH Hy]; cbn [insert_sorted].
  - repeat constructor.
  - destruct (str_leb x y) eqn:Hxy.
    + constructor; [now constructor|now constructor].
    + constructor; [exact IH|]. apply insert_sorted_head; [|exact Hy].
      destruct (str_leb_total x y) as [H|H]; [|exact H].
      unfold str_le in H. congruence.
Qed.

Lemma insert_sorted_perm (x : str) (l : list str) :
  Permutation (insert_sorted x l) (x :: l).
Proof.
  induction l as [|y l IH]; cbn [insert_sorted]; [reflexivity|].
  destruct (str_leb x y); [reflexivity|].
  rewrite IH. apply perm_swap.
Qed.

Lemma sort_strs_sorted (l : list str) : Sorted str_le (sort_strs l).
Proof.
  induction l as [|x l IH]; cbn [sort_strs fold_right]; [constructor|].
  now apply insert_sorted_sorted.
Qed.

Lemma sort_strs_perm (l : list str) : Permutation (sort_strs l) l.
Proof.
  induction l as [|x l IH]; cbn [sort_strs fold_right]; [reflexivity|].
  fold (sort_strs l). rewrite insert_sorted_perm. now constructor.
Qed.

Section MoreRunProperties.

Context {U : Unicode}.
Variable json_loads : str -> result pyval.
Variable a : MRIApp.

(** X10. A report whose classifier response cannot be parsed is not lost:
    it gets a row with the label "uncertain", the score 3 and a summary of
    at most 303 characters cut from the text that was sent. *)
Theorem unparseable_response_still_gives_row
    (c : str -> str -> result str) (pdf_path full_text section_text label : str)
    (note : log_line) (output_text : str) (rows : list dict) :
  load_pdf_text a pdf_path = Ret full_text ->
  select_section (extract_findings_section full_text)
                 (extract_impression_section full_text) full_text
  = (section_text, label, note) ->
  c section_text label = Ret output_text ->
  json_loads (response_content output_text) = Raise JSONDecodeError ->
  exists patient summary turn,
    process_report json_loads a c pdf_path rows
    = Ret (rows ++ [report_row (basename a pdf_path) patient summary
                      (PStr (py "uncertain")) (PInt 3)],
           turn)
    /\ summary
       = strip (firstn 300 section_text
                ++ (if 300 <? length section_text then py "..." else []))
    /\ length summary <= 303.
Proof.
  intros Hload Hsel Hc Hparse. unfold process_report. rewrite Hload.
  cbv zeta. rewrite Hsel. unfold summarize_section_structured.
  rewrite Hc. cbn [bind].
  rewrite (normalize_response_decode_error _ _ _ Hparse).
  rewrite report_fields_fallback. cbn [bind].
  do 3 eexists. split; [reflexivity|]. split; [reflexivity|].
  etransitivity; [apply strip_length|apply fallback_summary_length].
Qed.

Lemma process_report_returns
    (c : str -> str -> result str) (pdf_path : str) (rows : list dict) :
  (forall section_text label output_text v,
      c section_text label = Ret output_text ->
      json_loads (response_content output_text) = Ret v ->
      readable_record v) ->
  exists r, process_report json_loads a c pdf_path rows = Ret r.
Proof.
  intros Hread. unfold process_report.
  destruct (load_pdf_text a pdf_path) as [full_text|e];
    [|eexists; reflexivity].
  cbv zeta.
  destruct (select_section _ _ full_text) as [[section_text label] note].
  unfold summarize_section_structured.
  destruct (c section_text label) as [output_text|e] eqn:Hc; cbn [bind];
    [|eexists; reflexivity].
  destruct (json_loads (response_content output_text)) as [v|e] eqn:Hparse.
  - rewrite (normalize_response_parsed _ _ section_text _ Hparse).
    destruct (report_fields_readable v (Hread _ _ _ _ Hc Hparse))
      as ([[summary sl] sc] & ->).
    cbn [bind]. eexists. reflexivity.
  - unfold normalize_response. fold (response_content output_text).
    rewrite Hparse. destruct e; eexists; reflexivity.
Qed.

Lemma process_reports_returns
    (c : str -> str -> result str) (pdf_files : list str) :
  (forall section_text label output_text v,
      c section_text label = Ret output_text ->
      json_loads (response_content output_text) = Ret v ->
      readable_record v) ->
  forall rows, exists r, process_reports json_loads a c pdf_files rows = Ret r.
Proof.
  intros Hread. induction pdf_files as [|pdf_path rest IH]; intros rows;
    cbn [process_reports]; [eexists; reflexivity|].
  destruct (process_report_returns c pdf_path rows Hread) as (turn & ->).
  cbn [bind]. destruct (IH (fst turn)) as (later & ->).
  cbn [bind]. eexists. reflexivity.
Qed.

(** X11. The run ends normally, whatever the reports hold and whatever the
    classifier raises, when the folder can be listed and every response that
    is a JSON document is an object whose summary, when it has one, is a
    string. *)
Theorem run_aggregation_returns :
  (exists names, listdir a (strip (folder_var a)) = Ret names) ->
  (forall c section_text label output_text v,
      client a = Some c ->
      c section_text label = Ret output_text ->
      json_loads (response_content output_text) = Ret v ->
      readable_record v) ->
  exists events, run_aggregation json_loads a = Ret events.
Proof.
  intros (names & Hlist) Hread. unfold run_aggregation.
  destruct (client a) as [c|] eqn:Hclient; [|eexists; reflexivity].
  cbv zeta.
  destruct (negb (isdir a (strip (folder_var a)))); [eexists; reflexivity|].
  destruct (negb (isdir a (strip (out_var a)))); [eexists; reflexivity|].
  rewrite Hlist. cbn [bind].
  destruct (sort_strs _) as [|pdf_path rest]; [eexists; reflexivity|].
  destruct (process_reports_returns c (pdf_path :: rest)
              (fun s l o v => Hread c s l o v eq_refl) [])
    as ([rows turns] & ->).
  cbn [bind]. destruct rows; eexists; reflexivity.
Qed.

Lemma export_writes (output_folder : str) (rows : list dict) :
  let csv_path := path_join a output_folder (py "mri_per_report_summary.csv") in
  let json_path := path_join a output_folder (py "mri_per_report_summary.json") in
  exists body,
    let csv := CsvRows (csv_header :: body) in
    let json := JsonDump (PList (map PDict rows)) in
    filter is_write (export a output_folder rows) = [WriteFile csv_path csv]
    \/ filter is_write (export a output_folder rows)
       = [WriteFile csv_path csv; WriteFile json_path json].
Proof.
  intros csv_path json_path. unfold export. fold csv_path json_path.
  destruct (csv_body rows) as [body ended]. exists body. cbv zeta.
  destruct (_ <- write_file a csv_path _ ;; ended); [|now left].
  destruct (write_file a json_path _); now right.
Qed.

(** X12. Whatever the run does, the only files it writes are the two
    summaries in the output folder: none, or the table alone when writing it
    fails, or the table and then the array of the rows. *)
Theorem run_writes_only_the_summaries (events : list event) :
  let output_folder := strip (out_var a) in
  let csv_path := path_join a output_folder (py "mri_per_report_summary.csv") in
  let json_path := path_join a output_folder (py "mri_per_report_summary.json") in
  run_aggregation json_loads a = Ret events ->
  filter is_write events = []
  \/ (exists body,
        filter is_write events = [WriteFile csv_path (CsvRows (csv_header :: body))])
  \/ (exists body rows,
        filter is_write events
        = [ WriteFile csv_path (CsvRows (csv_header :: body));
            WriteFile json_path (JsonDump (PList (map PDict rows))) ]).
Proof.
  intros output_folder csv_path json_path. unfold run_aggregation.
  destruct (client a) as [c|]; [|intros H; inversion H; now left].
  cbv zeta. fold output_folder.
  destruct (negb (isdir a (strip (folder_var a))));
    [intros H; inversion H; now left|].
  destruct (negb (isdir a output_folder)); [intros H; inversion H; now left|].
  destruct (listdir a _) as [names|e]; cbn [bind]; [|discriminate].
  destruct (sort_strs _) as [|pdf_path rest];
    [intros H; inversion H; now left|].
  destruct (process_reports json_loads a c (pdf_path :: rest) [])
    as [[rows turns]|e] eqn:Hloop; cbn [bind]; [|discriminate].
  destruct (process_reports_spec _ _ _ _ _ _ _ Hloop) as (_ & Hquiet).
  destruct rows as [|row rows]; intros H; inversion H; subst events; clear H.
  - left. cbn [app filter is_write].
    rewrite filter_app, (filter_quiet _ Hquiet). reflexivity.
  - right. cbn [app filter is_write].
    rewrite filter_app, (filter_quiet _ Hquiet). cbn [app filter is_write].
    destruct (export_writes output_folder (row :: rows)) as (body & [Hw|Hw]);
      fold csv_path json_path in Hw; rewrite Hw.
    + left. now exists body.
    + right. now exists body, (row :: rows).
Qed.

Lemma select_section_note
    (findings_text impression_text : option str) (full_text : str)
    (section_text label : str) (note : log_line) :
  select_section findings_text impression_text full_text
  = (section_text, label, note) ->
  note = UsingFindings \/ note = UsingImpression \/ note = UsingFullReport.
Proof.
  unfold select_section.
  destruct findings_text as [[|x f]|], impression_text as [[|y i]|];
    intros H; inversion H; auto.
Qed.

Lemma process_report_row
    (c : str -> str -> result str) (pdf_path : str) (rows rows' : list dict)
    (turn : list event) :
  process_report json_loads a c pdf_path rows = Ret (rows', turn) ->
  (rows' = rows
   \/ exists row, row_of (basename a pdf_path) row /\ rows' = rows ++ [row])
  /\ processed turn = [basename a pdf_path].
Proof.
  unfold process_report.
  destruct (load_pdf_text a pdf_path) as [full_text|e].
  2:{ intros H. inversion H; subst. split; [now left|reflexivity]. }
  cbv zeta.
  destruct (select_section _ _ full_text)
    as [[section_text source_label] note] eqn:Hsel.
  apply select_section_note in Hsel.
  destruct (summarize_section_structured json_loads c section_text source_label)
    as [structured|e].
  2:{ intros H. inversion H; subst. split; [now left|].
      destruct Hsel as [->|[->| ->]]; reflexivity. }
  destruct (report_fields structured) as [[[summary label] score]|e] eqn:Hf;
    cbn [bind]; [|discriminate].
  intros H. inversion H; subst. split;
    [|destruct Hsel as [->|[->| ->]]; reflexivity].
  right. eexists. split; [|reflexivity].
  exists (if nonempty (extract_patient_name full_text)
          then extract_patient_name full_text else py "Unknown"),
    summary, label, score.
  split; [reflexivity|].
  destruct (patient_name_shape full_text) as [Hlen Hstrip].
  destruct (extract_patient_name full_text) as [|x name];
    [cbn in Hlen; lia|].
  cbn [nonempty]. split; [exact Hlen|]. split; [exact Hstrip|].
  exact (report_fields_trimmed _ _ _ _ Hf).
Qed.

Lemma process_reports_rows (c : str -> str -> result str) (pdf_files : list str) :
  forall rows rows' turns,
    process_reports json_loads a c pdf_files rows = Ret (rows', turns) ->
    (exists kept added,
        rows' = rows ++ added
        /\ subsequence kept pdf_files
        /\ Forall2 (fun path row => row_of (basename a path) row) kept added)
    /\ processed turns = map (basename a) pdf_files.
Proof.
  induction pdf_files as [|pdf_path rest IH]; intros rows rows' turns;
    cbn [process_reports].
  - intros H. inversion H; subst. split; [|reflexivity].
    exists [], []. split; [now rewrite app_nil_r|]. split; constructor.
  - destruct (process_report json_loads a c pdf_path rows)
      as [[rows1 turn]|e] eqn:Hturn; cbn [bind fst snd]; [|discriminate].
    destruct (process_reports json_loads a c rest rows1)
      as [[rows2 later]|e] eqn:Hlater; cbn [bind fst snd]; [|discriminate].
    intros H. inversion H; subst.
    destruct (process_report_row _ _ _ _ _ Hturn) as (Hrows1 & Hp1).
    destruct (IH _ _ _ Hlater) as ((kept & added & -> & Hsub & Hrows) & Hp2).
    split.
    + destruct Hrows1 as [->|(row & Hrow & ->)].
      * exists kept, added. split; [reflexivity|]. split; [|exact Hrows].
        now constructor.
      * exists (pdf_path :: kept), (row :: added). rewrite <- app_assoc.
        split; [reflexivity|]. split; now constructor.
    + unfold processed in *. rewrite flat_map_app, Hp1, Hp2. reflexivity.
Qed.

Lemma subsequence_length {A : Type} (l l' : list A) :
  subsequence l l' -> length l <= length l'.
Proof. induction 1; cbn [Datatypes.length]; lia. Qed.

(** X13. The rows follow the reports: each row is the row of one PDF file,
    named after it, in the order of the files, no file has two rows, and in
    every row the patient name has 1 to 80 characters and neither it nor
    the summary has whitespace at either end. *)
Theorem rows_follow_the_reports
    (c : str -> str -> result str) (pdf_files : list str) (rows : list dict)
    (turns : list event) :
  process_reports json_loads a c pdf_files [] = Ret (rows, turns) ->
  length rows <= length pdf_files
  /\ exists kept,
       subsequence kept pdf_files
       /\ Forall2 (fun path row => row_of (basename a path) row) kept rows.
Proof.
  intros Hloop.
  destruct (process_reports_rows _ _ _ _ _ Hloop)
    as ((kept & added & Hrows & Hsub & Hall) & _).
  cbn [app] in Hrows. subst added. split; [|now exists kept].
  rewrite <- (Forall2_length Hall). now apply subsequence_length.
Qed.

(** X14. The PDF files of the folder are handled in ascending order of
    their paths, each exactly once: the paths are those of the names that
    end in ".pdf", in any case, put in order, and a run that ends normally
    has announced each of them once, in that order. *)
Theorem reports_processed_in_sorted_order
    (c : str -> str -> result str) (names : list str) (events : list event) :
  let input_folder := strip (folder_var a) in
  let output_folder := strip (out_var a) in
  let chosen :=
    map (path_join a input_folder)
        (filter (fun f => endswith (py ".pdf") (u_lower f)) names) in
  let pdf_files := sort_strs chosen in
  client a = Some c ->
  isdir a input_folder = true ->
  isdir a output_folder = true ->
  listdir a input_folder = Ret names ->
  run_aggregation json_loads a = Ret events ->
  Sorted str_le pdf_files
  /\ Permutation pdf_files chosen
  /\ processed events = map (basename a) pdf_files.
Proof.
  intros input_folder output_folder chosen pdf_files Hclient Hin Hout Hlist
    Hrun.
  split; [apply sort_strs_sorted|]. split; [apply sort_strs_perm|].
  revert Hrun. unfold run_aggregation. rewrite Hclient. cbv zeta.
  fold input_folder output_folder. rewrite Hin, Hout, Hlist.
  cbn [negb bind]. fold chosen. fold pdf_files.
  destruct pdf_files as [|pdf_path rest] eqn:Hfiles.
  { intros H. inversion H. reflexivity. }
  destruct (process_reports json_loads a c (pdf_path :: rest) [])
    as [[rows turns]|e] eqn:Hloop; cbn [bind]; [|discriminate].
  destruct (process_reports_rows _ _ _ _ _ Hloop) as (_ & Hp).
  assert (forall tail,
             (forall e, In e tail -> match e with
                                     | Log (Processing _) => False
                                     | _ => True
                                     end) ->
             processed tail = []) as Hquiet.
  { induction tail as [|e tail IH]; intros Ht; [reflexivity|].
    unfold processed in *. cbn [flat_map].
    rewrite IH by (intros e' He'; apply Ht; now right).
    specialize (Ht e (or_introl eq_refl)).
    destruct e as [| | |[]|]; try reflexivity. destruct Ht. }
  destruct rows as [|row rows]; intros H; inversion H; subst events; clear H;
    unfold processed in *; cbn [flat_map app];
    rewrite flat_map_app, Hp; cbn [flat_map app].
  - now rewrite app_nil_r.
  - fold (processed (export a output_folder (row :: rows))).
    rewrite Hquiet; [now rewrite app_nil_r|].
    intros e. unfold export.
    destruct (csv_body (row :: rows)) as [body ended].
    destruct (_ <- write_file a _ _ ;; ended);
      [destruct (write_file a _ _)|]; cbn [In];
      intros He; repeat (destruct He as [<-|He]; [exact I|]); destruct He.
Qed.

End MoreRunProperties.

Lemma unparseable_response_still_gives_row_witness :
  let a := demo_app [py "scan1.pdf"] demo_text (Ret (py "not json")) in
  exists patient summary turn,
    process_report (U := ascii_tables) Json.loads a
      (fun _ _ => Ret (py "not json")) (py "reports/scan1.pdf") []
    = Ret ([report_row (py "scan1.pdf") patient summary
              (PStr (py "uncertain")) (PInt 3)],
           turn)
    /\ length summary <= 303.
Proof.
  intros a.
  destruct (unparseable_response_still_gives_row (U := ascii_tables)
              Json.loads a (fun _ _ => Ret (py "not json"))
              (py "reports/scan1.pdf") demo_text
              (py "no acute abnormality.") (py "findings") UsingFindings
              (py "not json") [] eq_refl eq_refl eq_refl eq_refl)
    as (patient & summary & turn & Hrow & _ & Hlen).
  exists patient, summary, turn. split; [exact Hrow|exact Hlen].
Defined.

Lemma run_aggregation_returns_witness :
  exists events,
    run_aggregation (U := ascii_tables) Json.loads
      (demo_app [py "scan1.pdf"] demo_text (Ret demo_answer))
    = Ret events.
Proof.
  apply run_aggregation_returns.
  - exists [py "scan1.pdf"]. reflexivity.
  - intros c section_text label output_text v Hc Hout Hv.
    cbn [client demo_app] in Hc. inversion Hc; subst c.
    inversion Hout; subst output_text.
    vm_compute in Hv. inversion Hv; subst v.
    eexists. eexists. split; reflexivity.
Defined.

Lemma run_writes_only_the_summaries_witness :
  let a := demo_app [py "scan1.pdf"] demo_text (Ret demo_answer) in
  let csv_path := py "out/mri_per_report_summary.csv" in
  let json_path := py "out/mri_per_report_summary.json" in
  exists events,
    run_aggregation (U := ascii_tables) Json.loads a = Ret events
    /\ (filter is_write events = []
        \/ (exists body,
              filter is_write events
              = [WriteFile csv_path (CsvRows (csv_header :: body))])
        \/ (exists body rows,
              filter is_write events
              = [ WriteFile csv_path (CsvRows (csv_header :: body));
                  WriteFile json_path (JsonDump (PList (map PDict rows))) ])).
Proof.
  intros a csv_path json_path. eexists. split; [vm_compute; reflexivity|].
  apply (run_writes_only_the_summaries (U := ascii_tables) Json.loads a).
  vm_compute. reflexivity.
Defined.

Lemma rows_follow_the_reports_witness :
  let a := demo_app [py "scan1.pdf"] demo_text (Ret demo_answer) in
  let row :=
    report_row (py "scan1.pdf") (py "Unknown") (py "Normal brain MRI.")
      (PStr (py "none/normal")) (PInt 0) in
  length [row] <= length [py "reports/scan1.pdf"]
  /\ exists kept,
       subsequence kept [py "reports/scan1.pdf"]
       /\ Forall2 (fun path row => row_of (basename a path) row) kept [row].
Proof.
  intros a row.
  assert (process_reports (U := ascii_tables) Json.loads a
            (fun _ _ => Ret demo_answer) [py "reports/scan1.pdf"] []
          = Ret ([row],
                 [ Log (Processing (py "scan1.pdf")); Log UsingFindings;
                   Log (Done (PStr (py "none/normal")) (PInt 0)) ])) as Hloop.
  { vm_compute. reflexivity. }
  exact (rows_follow_the_reports (U := ascii_tables) Json.loads a _ _ _ _ Hloop).
Defined.

Lemma reports_processed_in_sorted_order_witness :
  let a := demo_app [py "b.pdf"; py "notes.txt"; py "A.PDF"] demo_text
             (Ret demo_answer) in
  let pdf_files := [py "reports/A.PDF"; py "reports/b.pdf"] in
  exists events,
    run_aggregation (U := ascii_tables) Json.loads a = Ret events
    /\ Sorted str_le pdf_files
    /\ Permutation pdf_files [py "reports/b.pdf"; py "reports/A.PDF"]
    /\ processed events = [py "A.PDF"; py "b.pdf"].
Proof.
  intros a pdf_files. eexists. split; [vm_compute; reflexivity|].
  refine (reports_processed_in_sorted_order (U := ascii_tables) Json.loads a
            (fun _ _ => Ret demo_answer)
            [py "b.pdf"; py "notes.txt"; py "A.PDF"] _
            eq_refl eq_refl eq_refl eq_refl _).
  vm_compute. reflexivity.
Defined.

(** ** The text handed to the classifier *)

Section MoreSelectionProperties.

Context {U : Unicode}.

Lemma extracted_section_length
    (text heading : str) (stop_headings : list str) (body : str) :
  extract_section_by_heading text heading stop_headings = Some body ->
  length body <= length text.
Proof.
  intros H.
  destruct (extract_section_cases text heading stop_headings)
    as [[_ Hres]|(i & start & g & e & _ & _ & Hres)];
    rewrite Hres in H; [discriminate|].
  cbn zeta in H.
  destruct (nonempty (strip (slice (normalize_text text) start e)));
    [|discriminate].
  inversion H. etransitivity; [apply strip_length|].
  unfold slice. rewrite length_firstn, length_skipn.
  pose proof (normalize_text_length text). lia.
Qed.

(** X15. The text sent to the classifier is never empty unless the report
    has no text at all, and it is never longer than the report. *)
Theorem classifier_text_not_empty
    (full_text section_text label : str) (note : log_line) :
  select_section (extract_findings_section full_text)
                 (extract_impression_section full_text) full_text
  = (section_text, label, note) ->
  full_text <> [] ->
  section_text <> [] /\ length section_text <= length full_text.
Proof.
  unfold select_section, extract_findings_section, extract_impression_section.
  intros H Hfull.
  destruct (extract_section_by_heading full_text (py "findings") _)
    as [[|x f]|] eqn:Hf.
  - destruct (extract_section_by_heading full_text (py "impression") _)
      as [[|y i]|] eqn:Hi; inversion H; subst.
    + now split.
    + split; [discriminate|]. exact (extracted_section_length _ _ _ _ Hi).
    + now split.
  - inversion H; subst. split; [discriminate|].
    exact (extracted_section_length _ _ _ _ Hf).
  - destruct (extract_section_by_heading full_text (py "impression") _)
      as [[|y i]|] eqn:Hi; inversion H; subst.
    + now split.
    + split; [discriminate|]. exact (extracted_section_length _ _ _ _ Hi).
    + now split.
Qed.

End MoreSelectionProperties.

Lemma classifier_text_not_empty_witness :
  py "no acute abnormality." <> []
  /\ length (py "no acute abnormality.") <= length demo_text.
Proof.
  apply (classifier_text_not_empty (U := ascii_tables) demo_text
           (py "no acute abnormality.") (py "findings") UsingFindings).
  - vm_compute. reflexivity.
  - discriminate.
Defined.

(** ** The table shown before the export *)

Lemma ljust_length (n : nat) (s : str) : length (ljust n (firstn n s)) = n.
Proof.
  unfold ljust. rewrite length_app, repeat_length, length_firstn. lia.
Qed.

Lemma skipn_exact {A : Type} (l1 l2 : list A) (n : nat) :
  length l1 = n -> skipn n (l1 ++ l2) = l2.
Proof.
  intros <-. rewrite skipn_app, skipn_all, Nat.sub_diag. reflexivity.
Qed.

Section MoreTableProperties.

Variable py_str : pyval -> str.

(** X16. In the table every row's summary starts at offset 71 of its line,
    which is where the word Summary starts in the header, whatever the
    lengths of the file name, of the patient name and of the severity; the
    line feeds of the summary are shown as spaces, so that a row is one
    line. *)
Theorem table_line_columns
    (file patient_name summary : str) (severity_label severity_score : pyval) :
  skipn 71 (table_line py_str file patient_name summary
              severity_label severity_score)
  = str_replace [LF] [SP] summary ++ [LF]
  /\ skipn 71 table_header = py "Summary" ++ [LF]
  /\ ~ In LF (str_replace [LF] [SP] summary)
  /\ length (str_replace [LF] [SP] summary) = length summary.
Proof.
  split; [|split; [reflexivity|split]].
  - unfold table_line. cbv zeta.
    set (sev := py_str severity_label ++ py " (" ++ py_str severity_score
                ++ py ")").
    rewrite !(app_assoc _ _ (str_replace [LF] [SP] summary ++ [LF])).
    apply skipn_exact. rewrite !length_app, !ljust_length. reflexivity.
  - apply replace_single_not_in. discriminate.
  - unfold str_replace. rewrite replace_go_single. apply length_map.
Qed.

End MoreTableProperties.

(** ** [load_pdf_text] *)

Lemma str_join_app (sep : str) (l1 l2 : list str) :
  l1 <> [] -> l2 <> [] ->
  str_join sep (l1 ++ l2) = str_join sep l1 ++ sep ++ str_join sep l2.
Proof.
  intros H1 H2. induction l1 as [|p l1 IH]; [now destruct H1|].
  destruct l1 as [|q l1].
  - destruct l2 as [|r l2]; [now destruct H2|]. reflexivity.
  - change (str_join sep ((p :: q :: l1) ++ l2))
      with (p ++ sep ++ str_join sep ((q :: l1) ++ l2)).
    rewrite IH by discriminate.
    change (str_join sep (p :: q :: l1))
      with (p ++ sep ++ str_join sep (q :: l1)).
    now rewrite <- !app_assoc.
Qed.

Lemma str_join_length (sep : str) (l : list str) :
  length (str_join sep l) + length sep
  = list_sum (map (fun p => length p + length sep) l)
    + (match l with [] => length sep | _ :: _ => 0 end).
Proof.
  induction l as [|p l IH]; [reflexivity|].
  destruct l as [|q l].
  - cbn [str_join map]. change (list_sum [?x]) with (x + 0). lia.
  - change (str_join sep (p :: q :: l)) with (p ++ sep ++ str_join sep (q :: l)).
    rewrite !length_app.
    change (list_sum (map (fun p0 => length p0 + length sep) (p :: q :: l)))
      with (length p + length sep
            + list_sum (map (fun p0 => length p0 + length sep) (q :: l))).
    cbv beta iota in IH. lia.
Qed.

(** X17. The text of a document is the texts of its pages in order with one
    line feed between two pages, a page without text standing as an empty
    line: joining is compatible with splitting the document in two, the
    second part starts a line, and no character is lost. *)
Theorem pages_joined_by_line_feeds (before after : list (option str)) :
  before <> [] -> after <> [] ->
  load_pdf_pages (before ++ after)
  = load_pdf_pages before ++ [LF] ++ load_pdf_pages after
  /\ at_line_start (load_pdf_pages (before ++ after))
       (S (length (load_pdf_pages before))) = true
  /\ length (load_pdf_pages (before ++ after)) + 1
     = list_sum (map (fun page => length (or_empty page) + 1) (before ++ after)).
Proof.
  intros Hb Ha.
  assert (load_pdf_pages (before ++ after)
          = load_pdf_pages before ++ [LF] ++ load_pdf_pages after) as Hjoin.
  { unfold load_pdf_pages. rewrite map_app. apply str_join_app.
    - destruct before; [now destruct Hb|discriminate].
    - destruct after; [now destruct Ha|discriminate]. }
  split; [exact Hjoin|]. split.
  - rewrite Hjoin. cbn [at_line_start].
    rewrite nth_error_app2 by lia. rewrite Nat.sub_diag. reflexivity.
  - unfold load_pdf_pages.
    pose proof (str_join_length [LF] (map or_empty (before ++ after))) as Hlen.
    rewrite map_map in Hlen. cbn [Datatypes.length] in Hlen.
    destruct (map or_empty (before ++ after)) eqn:Hmap; [|lia].
    apply map_eq_nil, app_eq_nil in Hmap. now destruct Hb.
Qed.

Lemma pages_joined_by_line_feeds_witness :
  load_pdf_pages [Some (py "Patient: Jane Roe"); None; Some (py "Findings: none")]
  = py "Patient: Jane Roe" ++ [LF] ++ [LF] ++ py "Findings: none".
Proof.
  exact (proj1 (pages_joined_by_line_feeds
                  [Some (py "Patient: Jane Roe"); None]
                  [Some (py "Findings: none")]
                  ltac:(discriminate) ltac:(discriminate))).
Defined.

(** ** When [extract_patient_name] finds a name and when it cannot *)

Lemma span_stop (p : char -> bool) (pre rest : str) :
  forallb p pre = true ->
  match rest with c :: _ => p c = false | [] => True end ->
  span p (pre ++ rest) = length pre.
Proof.
  intros Hpre Hrest.
  induction pre as [|c pre IH]; cbn [forallb app span Datatypes.length] in *.
  - destruct rest as [|c rest]; [reflexivity|]. cbn [span]. now rewrite Hrest.
  - apply andb_true_iff in Hpre as [-> Hpre]. now rewrite IH.
Qed.

Lemma span_two (p : char -> bool) (s : str) :
  2 <= span p s ->
  exists c1 c2 rest, s = c1 :: c2 :: rest /\ p c1 = true /\ p c2 = true.
Proof.
  destruct s as [|c1 [|c2 rest]]; cbn [span].
  - lia.
  - destruct (p c1); lia.
  - destruct (p c1) eqn:H1; [|lia]. destruct (p c2) eqn:H2; [|lia].
    intros _. now exists c1, c2, rest.
Qed.

Lemma skipn_nth_error (s : str) (i : nat) (c1 c2 : char) (rest : str) :
  skipn i s = c1 :: c2 :: rest ->
  nth_error s i = Some c1 /\ nth_error s (S i) = Some c2.
Proof.
  revert i. induction s as [|x s IH]; intros [|i] H; cbn in H;
    try discriminate.
  - inversion H. now split.
  - exact (IH i H).
Qed.

Section NameFoundOrNot.

Context {U : Unicode}.

Lemma ci_prefix_shorter (w w' s : str) :
  ci_prefix (w ++ w') s = true -> ci_prefix w s = true.
Proof.
  revert s. induction w as [|p w IH]; intros [|c s]; cbn [app ci_prefix];
    try reflexivity; try discriminate.
  intros H. apply andb_true_iff in H as [-> H]. exact (IH _ H).
Qed.

Lemma search_none (r : regex) (s : str) :
  (forall q, match_at r s q = None) -> re_search r s = None.
Proof.
  intros Hno. destruct (re_search r s) as [[[i j] g]|] eqn:Hs; [|reflexivity].
  apply re_search_some in Hs as (_ & Hm & _). rewrite Hno in Hm. discriminate.
Qed.

Lemma label_pattern_needs_label (label s : str) (i : nat) :
  ci_prefix label (skipn i s) = false ->
  match_at (label_pattern label) s i = None.
Proof.
  intros H. unfold match_at, label_pattern. cbn [chain fold_right run].
  now rewrite run_ilits, H.
Qed.

Lemma label_pattern_needs_separator (label s : str) (i : nat) :
  match nth_error s (i + length label) with
  | Some c => colon_or_dash c = false
  | None => True
  end ->
  match_at (label_pattern label) s i = None.
Proof.
  intros H. unfold match_at, label_pattern. cbn [chain fold_right run].
  rewrite run_ilits. destruct (ci_prefix label (skipn i s)); [|reflexivity].
  destruct (nth_error s (i + length label)) as [c|]; [|reflexivity].
  now rewrite H.
Qed.

Lemma no_label_no_name (norm : str) :
  (forall pat q, In pat patterns -> match_at pat norm q = None) ->
  first_name patterns norm = None.
Proof.
  intros Hno. unfold patterns, first_name, name_from.
  rewrite !search_none; [reflexivity| | |];
    intros q; apply Hno; unfold patterns; cbn [In]; auto.
Qed.

(** X18. No name is found where none is labelled: a text in which neither
    the word patient nor the word name stands, in any case, or in which
    there is neither a colon nor a hyphen, gives "Unknown". *)
Theorem unlabelled_text_gives_unknown (text : str) :
  ((forall p, ci_prefix (py "patient") (skipn p (normalize_text text)) = false)
   /\ (forall p, ci_prefix (py "name") (skipn p (normalize_text text)) = false))
  \/ (forall c, In c (normalize_text text) -> colon_or_dash c = false) ->
  extract_patient_name text = py "Unknown".
Proof.
  intros H. unfold extract_patient_name. cbv zeta.
  rewrite no_label_no_name; [reflexivity|].
  intros pat q Hpat. destruct H as [[Hpatient Hname]|Hsep].
  - destruct Hpat as [<-|[<-|[<-|[]]]]; apply label_pattern_needs_label.
    + destruct (ci_prefix (py "patient name") _) eqn:Hp; [|reflexivity].
      change (py "patient name") with (py "patient" ++ py " name") in Hp.
      apply ci_prefix_shorter in Hp. now rewrite Hpatient in Hp.
    + apply Hpatient.
    + apply Hname.
  - destruct (patterns_are_labels _ Hpat) as (label & ->).
    apply label_pattern_needs_separator.
    destruct (nth_error _ _) as [c|] eqn:Hc; [|exact I].
    apply Hsep. exact (nth_error_In _ _ Hc).
Qed.

Lemma separator_free_no_match (line : str) :
  separator_free line -> re_split_head separators line = line.
Proof.
  intros [Hdob Hsp]. unfold re_split_head. rewrite search_none; [reflexivity|].
  intros q. unfold match_at, separators. cbn [run].
  destruct (span is_space (skipn q line) <? 2) eqn:Hn.
  - rewrite run_ilits, Hdob. reflexivity.
  - apply Nat.ltb_ge in Hn.
    destruct (span_two _ _ Hn) as (c1 & c2 & rest & Hs & H1 & H2).
    destruct (skipn_nth_error _ _ _ _ _ Hs) as [Hc1 Hc2].
    pose proof (Hsp _ _ _ Hc1 Hc2) as Hfalse.
    rewrite H1, H2 in Hfalse. discriminate.
Qed.

(** X19. A name that is labelled is found: when the first colon or hyphen
    of the text follows the words patient name, in any case, the name is
    what stands between the whitespace after it and the end of the line,
    provided it is trimmed, has 1 to 80 characters, and has in it neither
    two whitespace characters side by side nor the letters d, o, b. *)
Theorem labelled_name_is_returned
    (text before label_text : str) (sep : char) (gap name tail : str) :
  normalize_text text = before ++ label_text ++ sep :: gap ++ name ++ tail ->
  (forall c, In c (before ++ label_text) -> colon_or_dash c = false) ->
  ci_prefix (py "patient name") label_text = true ->
  length label_text = 12 ->
  colon_or_dash sep = true ->
  forallb is_space gap = true ->
  strip name = name ->
  0 < length name <= 80 ->
  separator_free name ->
  ~ In LF name ->
  match tail with c :: _ => c = LF | [] => True end ->
  extract_patient_name text = name.
Proof.
  intros Hnorm Hbefore Hlabel Hlen Hsep Hgap Hstrip Hname Hfree Hlf Htail.
  unfold extract_patient_name. cbv zeta.
  set (norm := normalize_text text) in *.
  set (pat := label_pattern (py "patient name")).
  set (i := length before).
  set (j := i + 13 + length gap).
  assert (skipn j norm = name ++ tail) as Hskip2.
  { rewrite Hnorm. unfold j, i. rewrite skipn_app.
    rewrite skipn_all2 by lia. rewrite skipn_app.
    rewrite skipn_all2 by lia.
    replace (length before + 13 + length gap - length before
             - length label_text) with (S (length gap)) by lia.
    rewrite skipn_cons, skipn_app, skipn_all, Nat.sub_diag. reflexivity. }
  assert (match_at pat norm i = Some (j + length name, Some (j, j + length name)))
    as Hmatch.
  { unfold match_at, pat, label_pattern. cbn [chain fold_right run].
    rewrite run_ilits.
    assert (skipn i norm = label_text ++ sep :: gap ++ name ++ tail) as Hskip.
    { rewrite Hnorm. unfold i.
      now rewrite skipn_app, skipn_all, Nat.sub_diag. }
    rewrite Hskip, (ci_prefix_app _ _ _ Hlabel).
    change (length (py "patient name")) with 12.
    assert (nth_error norm (i + 12) = Some sep) as Hnth.
    { rewrite Hnorm. unfold i. rewrite nth_error_app2 by lia.
      rewrite nth_error_app2 by lia.
      replace (length before + 12 - length before - length label_text)
        with 0 by lia.
      reflexivity. }
    rewrite Hnth, Hsep.
    assert (skipn (S (i + 12)) norm = gap ++ name ++ tail) as Hskip1.
    { rewrite Hnorm. unfold i. rewrite skipn_app.
      rewrite skipn_all2 by lia. rewrite skipn_app.
      rewrite skipn_all2 by lia.
      replace (S (length before + 12) - length before - length label_text)
        with 1 by lia.
      reflexivity. }
    destruct (stripped_head name Hstrip ltac:(destruct name; cbn in *; [lia|discriminate]))
      as (c & rest & Hc & Hcs).
    assert (span is_space (gap ++ name ++ tail) = length gap) as Hspan.
    { apply span_stop; [exact Hgap|]. rewrite Hc. exact Hcs. }
    rewrite Hskip1, Hspan.
    change (length gap <? 0) with false. cbv iota.
    apply backoff_first. cbn beta.
    assert (S (i + 12) + 0 + (length gap - 0) = j) as -> by (unfold j; lia).
    assert (span not_newline (name ++ tail) = length name) as Hspan2.
    { apply span_stop.
      - apply forallb_forall. intros x Hx. unfold not_newline.
        destruct (N.eqb_spec x LF) as [->|_]; [now destruct Hlf|reflexivity].
      - destruct tail as [|x tail]; [exact I|]. now rewrite Htail. }
    rewrite Hskip2, Hspan2.
    destruct (length name <? 1) eqn:Hone; [apply Nat.ltb_lt in Hone; lia|].
    apply backoff_first.
    replace (j + 1 + (length name - 1)) with (j + length name) by lia.
    reflexivity. }
  assert (re_search pat norm = Some (i, j + length name, Some (j, j + length name)))
    as Hsearch.
  { destruct (re_search pat norm) as [[[i' j'] g']|] eqn:Hs.
    - apply re_search_some in Hs as (_ & Hm & Hmin).
      assert (i' = i) as ->.
      { destruct (Nat.lt_trichotomy i' i) as [Hlt|[Heq|Hgt]]; [|exact Heq|].
        - exfalso. revert Hm. unfold pat.
          rewrite label_pattern_needs_separator; [discriminate|].
          change (length (py "patient name")) with 12.
          destruct (nth_error norm (i' + 12)) as [c|] eqn:Hc; [|exact I].
          apply Hbefore. rewrite Hnorm, app_assoc in Hc.
          rewrite nth_error_app1 in Hc
            by (rewrite length_app; fold i; lia).
          exact (nth_error_In _ _ Hc).
        - rewrite (Hmin _ Hgt) in Hmatch. discriminate. }
      rewrite Hmatch in Hm. now inversion Hm.
    - apply re_search_none in Hs. rewrite Hs in Hmatch; [discriminate|].
      unfold i. rewrite Hnorm, length_app. lia. }
  assert (name_from pat norm = Some name) as Hfrom.
  { unfold name_from. rewrite Hsearch. cbv zeta.
    assert (group1 norm (Some (j, j + length name)) = name) as ->.
    { unfold group1, slice.
      replace (j + length name - j) with (length name) by lia.
      rewrite Hskip2, firstn_app, firstn_all, Nat.sub_diag.
      cbn [firstn]. apply app_nil_r. }
    unfold name_candidate. cbv zeta.
    rewrite Hstrip, (separator_free_no_match _ Hfree), Hstrip.
    unfold acceptable.
    destruct (Nat.ltb_spec 0 (length name)) as [_|H0]; [|lia].
    destruct (Nat.leb_spec (length name) 80) as [_|H80]; [|lia].
    reflexivity. }
  unfold patterns. cbn [first_name]. fold pat. now rewrite Hfrom.
Qed.

End NameFoundOrNot.

Lemma unlabelled_text_gives_unknown_witness :
  extract_patient_name (U := ascii_tables) (py "Brain MRI") = py "Unknown".
Proof.
  apply unlabelled_text_gives_unknown. right.
  intros c Hc. vm_compute in Hc.
  repeat (destruct Hc as [<-|Hc]; [reflexivity|]). destruct Hc.
Defined.

Lemma labelled_name_is_returned_witness :
  extract_patient_name (U := ascii_tables)
    (py "Patient Name: Jane Roe" ++ [LF] ++ py "Findings: normal.")
  = py "Jane Roe".
Proof.
  apply (labelled_name_is_returned (U := ascii_tables) _ [] (py "Patient Name")
           58%N [SP] (py "Jane Roe") (LF :: py "Findings: normal.")).
  - reflexivity.
  - intros c Hc. vm_compute in Hc.
    repeat (destruct Hc as [<-|Hc]; [reflexivity|]). destruct Hc.
  - reflexivity.
  - reflexivity.
  - reflexivity.
  - reflexivity.
  - reflexivity.
  - cbn. lia.
  - split.
    + intros p. do 9 (destruct p as [|p]; [reflexivity|]). reflexivity.
    + intros p c1 c2.
      do 9 (destruct p as [|p];
            [intros H1 H2; inversion H1; inversion H2; reflexivity|]).
      intros H1. discriminate H1.
  - intros H. vm_compute in H.
    repeat (destruct H as [H|H]; [discriminate H|]). destruct H.
  - reflexivity.
Defined.

(** ** What the heading patterns match *)

Section HeadingProperties.

Context {U : Unicode}.

Lemma word_pattern_literal (w : str) :
  literal_word w = true -> word_pattern w = lits w.
Proof.
  unfold word_pattern, lits. intros H. f_equal.
  induction w as [|c w IH]; [reflexivity|].
  cbn [literal_word forallb] in H. apply andb_true_iff in H as [Hc Hw].
  cbn [map]. rewrite (IH Hw). f_equal.
  destruct (N.eqb_spec c 46) as [->|_]; [discriminate Hc|reflexivity].
Qed.

Lemma backoff_complete (k : nat -> matched) (base extra e : nat) :
  e <= extra -> k (base + e) <> None -> backoff k base extra <> None.
Proof.
  induction extra as [|extra IH]; intros He Hk; cbn [backoff].
  - assert (e = 0) as -> by lia. destruct (k (base + 0)); congruence.
  - destruct (k (base + S extra)) eqn:Htop; [discriminate|].
    apply IH; [|exact Hk].
    destruct (Nat.eq_dec e (S extra)) as [->|Hne]; [congruence|lia].
Qed.

Lemma run_rep_sound
    (p : char -> bool) (lo : nat) (s : str) (i : nat) (g : capture)
    (k : nat -> capture -> matched) (m : nat * capture) :
  run (Rep p lo) s i g k = Some m ->
  exists j, i + lo <= j /\ stretch p s i j /\ k j g = Some m.
Proof.
  cbn [run]. destruct (span p (skipn i s) <? lo) eqn:Hlo; [discriminate|].
  apply Nat.ltb_ge in Hlo. intros H.
  apply backoff_some in H as (e & He & H).
  exists (i + lo + e). split; [lia|]. split; [|exact H].
  unfold stretch. lia.
Qed.

Lemma run_rep_complete
    (p : char -> bool) (lo : nat) (s : str) (i j : nat) (g : capture)
    (k : nat -> capture -> matched) :
  i + lo <= j -> stretch p s i j -> k j g <> None ->
  run (Rep p lo) s i g k <> None.
Proof.
  intros Hlo [Hij Hspan] Hk. cbn [run].
  destruct (span p (skipn i s) <? lo) eqn:Hn;
    [apply Nat.ltb_lt in Hn; lia|].
  apply (backoff_complete _ _ _ (j - (i + lo))); [lia|].
  now replace (i + lo + (j - (i + lo))) with j by lia.
Qed.

Lemma run_separator (s : str) (p : nat) (g : capture) :
  run (chain [Rep is_space 0; Opt (Chr (one_of separator_punct))]) s p g
      (fun j g' => Some (j, g'))
  = Some (separator_end s p, g).
Proof.
  cbn [chain fold_right run].
  change (span is_space (skipn p s) <? 0) with false. cbv iota.
  apply backoff_first. cbv beta.
  replace (p + 0 + (span is_space (skipn p s) - 0))
    with (p + span is_space (skipn p s)) by lia.
  unfold separator_end, char_at. cbv zeta.
  destruct (nth_error s (p + span is_space (skipn p s))) as [c|];
    [|reflexivity].
  destruct (one_of separator_punct c); reflexivity.
Qed.

Lemma run_word_and_separator (w s : str) (h : nat) (g : capture) :
  literal_word w = true ->
  run (word_and_separator w) s h g (fun j g' => Some (j, g'))
  = match word_end w s h with Some j => Some (j, g) | None => None end.
Proof.
  intros Hw. unfold word_and_separator.
  change (chain [ word_pattern w; Opt (Chr (N.eqb 115)); WordB is_word;
                  Rep is_space 0; Opt (Chr (one_of separator_punct)) ])
    with (Seq (word_pattern w)
            (Seq (Opt (Chr (N.eqb 115)))
               (Seq (WordB is_word)
                  (chain [Rep is_space 0;
                          Opt (Chr (one_of separator_punct))])))).
  rewrite (word_pattern_literal _ Hw). cbn [run]. rewrite run_lits.
  unfold word_end, char_at.
  destruct (startswith w (skipn h s)); [|reflexivity]. cbv zeta.
  rewrite !run_separator.
  destruct (nth_error s (h + length w)) as [c|].
  - destruct (115 =? c)%N; cbn [andb].
    + destruct (word_boundary is_word s (S (h + length w))); [reflexivity|].
      destruct (word_boundary is_word s (h + length w)); reflexivity.
    + destruct (word_boundary is_word s (h + length w)); reflexivity.
  - cbn [andb]. destruct (word_boundary is_word s (h + length w)); reflexivity.
Qed.

(** A stop heading is found where the specification says one starts. *)
Lemma stop_pattern_matches (kw rest : str) (p : nat) :
  literal_word kw = true ->
  match_at (stop_pattern kw) rest p <> None <-> stop_at kw rest p = true.
Proof.
  intros Hkw. unfold match_at, stop_at.
  change (stop_pattern kw) with (Seq (WordB is_word) (word_and_separator kw)).
  cbn [run]. destruct (word_boundary is_word rest p); cbn [andb].
  - rewrite (run_word_and_separator _ _ _ _ Hkw).
    destruct (word_end kw rest p); split; congruence.
  - split; congruence.
Qed.

Lemma run_seq (r1 r2 : regex) (s : str) (i : nat) (g : capture)
    (k : nat -> capture -> matched) :
  run (Seq r1 r2) s i g k = run r1 s i g (fun j g' => run r2 s j g' k).
Proof. reflexivity. Qed.

Lemma run_opt (r : regex) (s : str) (i : nat) (g : capture)
    (k : nat -> capture -> matched) :
  run (Opt r) s i g k
  = match run r s i g k with Some m => Some m | None => k i g end.
Proof. reflexivity. Qed.

Lemma run_chr (p : char -> bool) (s : str) (i : nat) (g : capture)
    (k : nat -> capture -> matched) :
  run (Chr p) s i g k = if char_at p s i then k (S i) g else None.
Proof.
  cbn [run]. unfold char_at. destruct (nth_error s i); reflexivity.
Qed.

Lemma run_bol (s : str) (i : nat) (g : capture)
    (k : nat -> capture -> matched) :
  run Bol s i g k = if at_line_start s i then k i g else None.
Proof. reflexivity. Qed.

Lemma run_eps (s : str) (i : nat) (g : capture)
    (k : nat -> capture -> matched) :
  run Eps s i g k = k i g.
Proof. reflexivity. Qed.

(** The heading pattern, part by part. *)
Lemma heading_pattern_parts (w : str) :
  heading_pattern w
  = Seq Bol
      (Seq (Rep is_space 0)
         (Seq (Opt (Seq (Rep u_isdecimal 1)
                      (Seq (Rep is_space 0)
                         (Seq (Chr (one_of (py ".)"))) Eps))))
            (Seq (Rep is_space 0) (word_and_separator w)))).
Proof. reflexivity. Qed.

(** What the heading pattern matches is a heading as the specification
    describes it, with the word boundary the pattern asks for. *)
Lemma heading_pattern_sound (w s : str) (i j : nat) (g : capture) :
  literal_word w = true ->
  match_at (heading_pattern w) s i = Some (j, g) ->
  heading_at w s i j /\ g = None.
Proof.
  intros Hw. unfold match_at. rewrite heading_pattern_parts, run_seq, run_bol.
  destruct (at_line_start s i) eqn:Hbol; [|discriminate].
  rewrite run_seq. intros H.
  apply run_rep_sound in H as (a & _ & Ha & H).
  rewrite run_seq, run_opt in H.
  assert (forall x,
             run (Seq (Rep is_space 0) (word_and_separator w)) s x None
                 (fun j g' => Some (j, g')) = Some (j, g) ->
             exists h, stretch is_space s x h /\ word_end w s h = Some j
                       /\ g = None) as Hrest.
  { intros x Hx. rewrite run_seq in Hx.
    apply run_rep_sound in Hx as (h & _ & Hh & Hx).
    rewrite (run_word_and_separator _ _ _ _ Hw) in Hx.
    destruct (word_end w s h) as [j'|] eqn:Hend; [|discriminate].
    inversion Hx; subst. now exists h. }
  match type of H with
  | match ?c with _ => _ end = _ => destruct c as [m|] eqn:Hnum
  end.
  - inversion H; subst m. clear H. rewrite run_seq in Hnum.
    apply run_rep_sound in Hnum as (d & Hd & Hsd & Hnum).
    rewrite run_seq in Hnum.
    apply run_rep_sound in Hnum as (e & _ & Hse & Hnum).
    rewrite run_seq, run_chr in Hnum.
    destruct (char_at (one_of (py ".)")) s e) eqn:Hc; [|discriminate].
    rewrite run_eps in Hnum.
    destruct (Hrest _ Hnum) as (h & Hh & Hend & Hg).
    split; [|exact Hg]. exists h. split; [|exact Hend].
    split; [exact Hbol|]. exists a, (S e). split; [exact Ha|].
    split; [|exact Hh]. right. exists d, e.
    split; [lia|]. split; [exact Hsd|]. split; [exact Hse|].
    split; [exact Hc|reflexivity].
  - destruct (Hrest _ H) as (h & Hh & Hend & Hg).
    split; [|exact Hg]. exists h. split; [|exact Hend].
    split; [exact Hbol|]. exists a, a. split; [exact Ha|].
    split; [now left|exact Hh].
Qed.

(** Every heading of that description is matched. *)
Lemma heading_pattern_complete (w s : str) (i j : nat) :
  literal_word w = true ->
  heading_at w s i j -> match_at (heading_pattern w) s i <> None.
Proof.
  intros Hw (h & (Hbol & a & x & Ha & Hx & Hh) & Hend).
  unfold match_at. rewrite heading_pattern_parts, run_seq, run_bol, Hbol.
  rewrite run_seq. apply (run_rep_complete _ _ _ _ a);
    [destruct Ha; lia|exact Ha|].
  rewrite run_seq, run_opt.
  assert (forall y,
             stretch is_space s y h ->
             run (Seq (Rep is_space 0) (word_and_separator w)) s y None
                 (fun j g' => Some (j, g')) <> None) as Hrest.
  { intros y Hy. rewrite run_seq. apply (run_rep_complete _ _ _ _ h);
      [destruct Hy; lia|exact Hy|].
    rewrite (run_word_and_separator _ _ _ _ Hw), Hend. discriminate. }
  destruct Hx as [->|(d & e & Had & Hsd & Hse & Hc & ->)].
  - match goal with
    | |- match ?c with _ => _ end <> None => destruct c
    end; [discriminate|now apply Hrest].
  - match goal with
    | |- match ?c with _ => _ end <> None => assert (c <> None) as Hnum
    end.
    { rewrite run_seq. apply (run_rep_complete _ _ _ _ d); [lia|exact Hsd|].
      rewrite run_seq. apply (run_rep_complete _ _ _ _ e);
        [destruct Hse; lia|exact Hse|].
      rewrite run_seq, run_chr, Hc, run_eps. now apply Hrest. }
    match goal with
    | |- match ?c with _ => _ end <> None => destruct c
    end; [discriminate|now destruct Hnum].
Qed.

Lemma heading_at_in_text (w s : str) (i j : nat) :
  heading_at w s i j -> i <= length s.
Proof.
  intros (h & (Hbol & _) & _). destruct i as [|i]; [lia|].
  cbn [at_line_start] in Hbol.
  destruct (nth_error s i) eqn:Hn; [|discriminate].
  assert (i < length s) by (apply nth_error_Some; congruence). lia.
Qed.

Lemma no_heading_line (w s : str) :
  literal_word w = true ->
  no_match (heading_pattern w) s <-> forall i j, ~ heading_at w s i j.
Proof.
  intros Hw. split.
  - intros Hno i j Hat.
    apply (heading_pattern_complete _ _ _ _ Hw Hat), Hno.
    exact (heading_at_in_text _ _ _ _ Hat).
  - intros Hno q _.
    destruct (match_at (heading_pattern w) s q) as [[j g]|] eqn:Hm;
      [|reflexivity].
    destruct (heading_pattern_sound _ _ _ _ _ Hw Hm) as [Hat _].
    now destruct (Hno q j).
Qed.

Lemma first_heading_line (w s : str) (i start : nat) (g : capture) :
  literal_word w = true ->
  leftmost (heading_pattern w) s i start g ->
  heading_at w s i start /\ forall q j, q < i -> ~ heading_at w s q j.
Proof.
  intros Hw (_ & Hm & Hmin). split.
  - exact (proj1 (heading_pattern_sound _ _ _ _ _ Hw Hm)).
  - intros q j Hq Hat.
    exact (heading_pattern_complete _ _ _ _ Hw Hat (Hmin q Hq)).
Qed.

Lemma section_end_body_end
    (low : str) (start n : nat) (stops : list str) (e : nat) :
  forallb literal_word stops = true ->
  body_end low start n stops e <-> section_end low start n stops e.
Proof.
  intros Hstops.
  assert (forall kw p,
             In kw stops ->
             match_at (stop_pattern kw) (skipn start low) p <> None
             <-> stop_at kw (skipn start low) p = true) as Hstop.
  { intros kw p Hin. apply stop_pattern_matches.
    exact (proj1 (forallb_forall _ _) Hstops kw Hin). }
  unfold body_end, section_end. cbv zeta. split.
  - intros (Hn & Hmin & Hwit). split; [exact Hn|]. split.
    + intros kw p Hin Hp Hs. apply (Hmin kw p Hin Hp). now apply Hstop.
    + destruct Hwit as [->|(kw & p & Hin & Hp & Hs & ->)]; [now left|].
      right. exists kw, p. repeat split; try assumption. now apply Hstop.
  - intros (Hn & Hmin & Hwit). split; [exact Hn|]. split.
    + intros kw p Hin Hp Hs. apply (Hmin kw p Hin Hp). now apply Hstop.
    + destruct Hwit as [->|(kw & p & Hin & Hp & Hs & ->)]; [now left|].
      right. exists kw, p. repeat split; try assumption. now apply Hstop.
Qed.

(** The function and the section of the specification. *)
Lemma extract_section_body (text heading : str) (stops : list str) :
  literal_word heading = true -> forallb literal_word stops = true ->
  let norm := normalize_text text in
  let low := u_lower norm in
  ((forall i j, ~ heading_at heading low i j)
   /\ extract_section_by_heading text heading stops = None)
  \/ (exists body,
        section_body heading stops norm low body
        /\ (forall body',
              section_body heading stops norm low body' -> body' = body)
        /\ extract_section_by_heading text heading stops
           = if nonempty body then Some body else None).
Proof.
  intros Hw Hstops norm low.
  destruct (extract_section_cases text heading stops)
    as [[Hno Hres]|(i & start & g & e & Hl & He & Hres)];
    fold norm in Hno || fold norm in Hl, He, Hres;
    fold low in Hno || fold low in Hl, He, Hres.
  - left. split; [now apply no_heading_line|exact Hres].
  - right. exists (strip (slice norm start e)). split; [|split].
    + destruct (first_heading_line _ _ _ _ _ Hw Hl) as [Hat Hfirst].
      exists i, start, g, e. split; [exact Hl|]. split; [exact Hat|].
      split; [exact Hfirst|]. split; [|reflexivity].
      now apply section_end_body_end.
    + intros body' (i' & start' & g' & e' & Hl' & _ & _ & He' & ->).
      destruct (leftmost_unique _ _ _ _ _ _ _ _ Hl Hl') as (_ & <- & _).
      apply (section_end_body_end _ _ _ _ _ Hstops) in He'.
      now rewrite (body_end_unique _ _ _ _ _ _ He He').
    + exact Hres.
Qed.

(** C5, for headings that are words. For a heading and stop headings in
    which no character is special in a pattern, the function returns [None]
    exactly when no line of the lower-cased text starts with the heading
    (after whitespace and an optional numbering token, as a whole word
    with an optional letter s) or when the body trims to the empty string,
    and otherwise the trimmed piece of the normalised text that runs from
    the end of the heading and its separator, at the first such line, to
    the least offset after it where a stop heading starts as a whole word
    (the end of the text when there is none): the stop heading stays
    out. *)
Theorem extract_section_by_heading_spec
    (text heading : str) (stops : list str) :
  literal_word heading = true -> forallb literal_word stops = true ->
  let norm := normalize_text text in
  let low := u_lower norm in
  (extract_section_by_heading text heading stops = None
   <-> ((forall i j, ~ heading_at heading low i j)
        \/ section_body heading stops norm low []))
  /\ (forall body,
        extract_section_by_heading text heading stops = Some body
        <-> section_body heading stops norm low body /\ body <> []).
Proof.
  intros Hw Hstops norm low.
  destruct (extract_section_body text heading stops Hw Hstops)
    as [[Hno Hres]|(found & Hfound & Hone & Hres)];
    fold norm in Hno || fold norm in Hfound, Hone;
    fold low in Hno || fold low in Hfound, Hone; rewrite Hres.
  - split; [split; [now left|reflexivity]|].
    intros body. split; [discriminate|].
    intros [(i & start & g & e & _ & Hat & _) _]. now destruct (Hno i start).
  - split.
    + split.
      * destruct found; [now right|discriminate].
      * intros [Hno|Hempty].
        -- destruct Hfound as (i & start & g & e & _ & Hat & _).
           now destruct (Hno i start).
        -- now rewrite <- (Hone _ Hempty).
    + intros body. split.
      * destruct found as [|c rest] eqn:Hf; cbn [nonempty]; [discriminate|].
        intros H. inversion H; subst body. split; [exact Hfound|discriminate].
      * intros [Hbody Hne]. rewrite <- (Hone _ Hbody).
        destruct body; [now destruct Hne|reflexivity].
Qed.

End HeadingProperties.

Lemma extract_section_by_heading_spec_witness :
  let stops :=
    [py "impression"; py "conclusion"; py "discussion"; py "report"] in
  let norm := normalize_text demo_text in
  let low := u_lower (Unicode := ascii_tables) norm in
  extract_section_by_heading (U := ascii_tables) demo_text (py "findings") stops
  = Some (py "no acute abnormality.")
  <-> section_body (U := ascii_tables) (py "findings") stops norm low
        (py "no acute abnormality.")
      /\ py "no acute abnormality." <> [].
Proof.
  intros stops norm low.
  exact (proj2 (extract_section_by_heading_spec (U := ascii_tables) demo_text
                  (py "findings") stops eq_refl eq_refl)
               (py "no acute abnormality.")).
Defined.

(** A heading is put into the pattern as it is: the dot of "finding." is
    read as any character, so that a section is returned for a text in
    which the word "finding." stands nowhere and no line starts with it. *)
Lemma heading_is_read_as_a_pattern :
  let text := py "Findings: abc" in
  let low := u_lower (Unicode := ascii_tables) (normalize_text text) in
  extract_section_by_heading (U := ascii_tables) text (py "finding.") []
  = Some (py "abc")
  /\ (forall h, startswith (py "finding.") (skipn h low) = false)
  /\ (forall i j, ~ heading_at (U := ascii_tables) (py "finding.") low i j).
Proof.
  intros text low.
  assert (forall h, startswith (py "finding.") (skipn h low) = false) as Hno.
  { intros h. do 14 (destruct h as [|h]; [reflexivity|]). reflexivity. }
  split; [vm_compute; reflexivity|]. split; [exact Hno|].
  intros i j (h & _ & Hend). unfold word_end in Hend.
  rewrite Hno in Hend. discriminate.
Qed.

(** C9, where the code leaves it. A run that finds one PDF and gets the
    response "[]" for it produces no row: the turn of the loop for that
    file ends on the AttributeError of line 384 before any row is appended,
    and the run ends on that exception, not on the "No reports produced
    valid summaries." line.  With a response that is not a JSON document at
    all, or no response, the same run ends normally. *)
Theorem zero_records_run_raises :
  let a := demo_app [py "scan1.pdf"] demo_text (Ret (py "[]")) in
  process_report (U := ascii_tables) Json.loads a (fun _ _ => Ret (py "[]"))
    (py "reports/scan1.pdf") []
  = Raise AttributeError
  /\ process_reports (U := ascii_tables) Json.loads a
       (fun _ _ => Ret (py "[]")) [py "reports/scan1.pdf"] []
     = Raise AttributeError
  /\ run_aggregation (U := ascii_tables) Json.loads a = Raise AttributeError
  /\ run_aggregation (U := ascii_tables) Json.loads
       (demo_app [py "scan1.pdf"] demo_text (Raise OtherError))
     = Ret [ ClearLog; Log (Found 1); Log (Processing (py "scan1.pdf"));
             Log UsingFindings; Log LLMError; Log NoValidSummaries ].
Proof. repeat split; vm_compute; reflexivity. Qed.
